(** * Ground station flight sequencer: a shallow embedding

    The development follows [ground_station/rocket_client.py] and
    [ground_station/flight_controller.py].

    - Telemetry readings are Python floats and servo positions Python
      ints.  Readings are modelled as rationals ([Q]): every threshold
      of the controller (5, 40, 55, 65, 90, 100, 200, ...) is a small
      integer, and comparing a float with such a constant agrees with the
      comparison of the numbers.  NaN, infinities and rounding are outside
      the model.
    - The receive thread rewrites the telemetry dictionary between any two
      reads of the controller.  The environment therefore lists, for each
      successive read, the contents of the dictionary at that read
      ([feed]), and for each successive [time.time()] its value ([clock]).
    - Frames handed to the communication manager and calls of
      [time.sleep] are recorded in program order in [timeline].
    - [print] is not modelled. *)

From Stdlib Require Import QArith Qabs Lia Lqa.
From stdpp Require Import gmap strings list.

Local Open Scope string_scope.

(** ** Python values and exceptions *)

(** What a telemetry dictionary can hold.  Feed callbacks store
    [frame.payload[0]]: a float for a sensor, an int for a servo position.
    [VNone] is Python's [None]; [VOther] stands for any object that
    [float()] rejects with [ValueError] or [TypeError]. *)
Inductive value : Type :=
  | VInt (n : Z)
  | VFloat (x : Q)
  | VNone
  | VOther.

Inductive exn : Type :=
  | KeyError (key : string)
  | TypeError
  | ZeroDivisionError.

Definition exn_class (e : exn) : string :=
  match e with
  | KeyError _ => "KeyError"
  | TypeError => "TypeError"
  | ZeroDivisionError => "ZeroDivisionError"
  end.

(** [float(val)]: [None] when Python raises [ValueError] or [TypeError]. *)
Definition py_float (v : value) : option Q :=
  match v with
  | VInt n => Some (inject_Z n)
  | VFloat x => Some x
  | VNone => None
  | VOther => None
  end.

Definition Qlt_bool (a b : Q) : bool := negb (Qle_bool b a).

(** [max(a, b)] of two floats: the first argument unless the second is
    strictly greater. *)
Definition py_max (a b : Q) : Q := if Qlt_bool a b then b else a.

(** ** Frames (the fields the client fills in) *)

Inductive BoardID := ROCKET | SOFTWARE.
Inductive PriorityID := LOW.
Inductive ActionID := SERVICE | FEED.
Inductive DeviceID := SERVO | RELAY | SENSOR.
Inductive DataTypeID := INT16 | FLOAT.
Inductive OperationID := SERVO_POSITION | RELAY_OPEN | RELAY_CLOSE | SENSOR_READ.

Record Frame := {
  destination : BoardID;
  priority : PriorityID;
  action : ActionID;
  source : BoardID;
  device_type : DeviceID;
  device_id : Z;
  data_type : DataTypeID;
  operation : OperationID;
  payload : list Z
}.

(** ** Flight states *)

Inductive FlightState :=
  | IDLE | TANKING_OX | OX_READY | TANKING_FUEL | FUEL_READY | HEATING
  | ARMED | IGNITION_SEQUENCE | BOOST | ASCENT | COAST | APOGEE | DESCENT
  | CHUTE_DEPLOYED | LANDED | ABORT.

Definition FlightState_eqb (a b : FlightState) : bool :=
  match a, b with
  | IDLE, IDLE | TANKING_OX, TANKING_OX | OX_READY, OX_READY
  | TANKING_FUEL, TANKING_FUEL | FUEL_READY, FUEL_READY | HEATING, HEATING
  | ARMED, ARMED | IGNITION_SEQUENCE, IGNITION_SEQUENCE | BOOST, BOOST
  | ASCENT, ASCENT | COAST, COAST | APOGEE, APOGEE | DESCENT, DESCENT
  | CHUTE_DEPLOYED, CHUTE_DEPLOYED | LANDED, LANDED | ABORT, ABORT => true
  | _, _ => false
  end.

(** ** rocket_client.py: TelemetryStore

    A Python dictionary is an object on the heap; [TelemetryStore._data]
    is a reference to one.  [update] mutates that object in place,
    [get_all] allocates a new dictionary holding a copy of its contents
    and returns the reference to it.  The lock makes each method atomic,
    so a run is a sequence of method calls. *)

(** [d.get(key, default)] *)
Definition dict_get (d : gmap string value) (key : string) (dflt : value) : value :=
  default dflt (d !! key).

Module TelemetryStore.

Abbreviation heap := (gmap nat (gmap string value)).

Record t := { _data : nat }.

Definition alloc (d : gmap string value) (h : heap) : nat * heap :=
  let l := fresh (dom h) in (l, <[l := d]> h).

(** [d[key] = value] on the dictionary at [l] *)
Definition dict_setitem (l : nat) (key : string) (v : value) (h : heap) : heap :=
  alter (fun d => <[key := v]> d) l h.

(** [dict(d)] for the dictionary at [l]: a new object with the same
    items *)
Definition dict_copy (l : nat) (h : heap) : nat * heap :=
  alloc (default ∅ (h !! l)) h.

Definition init (h : heap) : t * heap :=
  let (l, h') := alloc ∅ h in ({| _data := l |}, h').

Definition update (self : t) (key : string) (v : value) (h : heap) : heap :=
  dict_setitem (_data self) key v h.

Definition get_all (self : t) (h : heap) : nat * heap :=
  dict_copy (_data self) h.

Definition get (self : t) (key : string) (dflt : value) (h : heap) : value :=
  dict_get (default ∅ (h !! _data self)) key dflt.

(** Calls on one store, and the heap after a sequence of them. *)
Inductive call :=
  | Update (key : string) (v : value)
  | Get (key : string) (dflt : value)
  | GetAll.

Definition step (self : t) (h : heap) (o : call) : heap :=
  match o with
  | Update key v => update self key v h
  | Get _ _ => h
  | GetAll => (get_all self h).2
  end.

Definition run (self : t) (calls : list call) (h : heap) : heap :=
  foldl (step self) h calls.

(** The value most recently written for [key] by [calls], if any. *)
Definition last_write (key : string) (calls : list call) : option value :=
  foldl (fun acc o =>
           match o with
           | Update k v => if String.eqb k key then Some v else acc
           | _ => acc
           end) None calls.

End TelemetryStore.

(** ** The client's device maps, the controller and its environment *)

Record RocketClient := {
  servo_map : gmap string Z;
  relay_map : gmap string Z;
  sensor_map : gmap string Z;
  servo_open_pos : gmap string Z;
  servo_closed_pos : gmap string Z
}.

Inductive event :=
  | Sent (f : Frame)      (* cm.push(frame); cm.send() *)
  | Slept (dt : Q).       (* time.sleep(dt) *)

Record World := {
  c : RocketClient;
  state : FlightState;
  apogee_alt : option Q;
  apogee_time : option Q;
  landed : bool;
  timeline : list event;
  feed : list (gmap string value);
  clock : list Q
}.

Definition with_state (s : FlightState) (w : World) : World :=
  {| c := c w; state := s; apogee_alt := apogee_alt w;
     apogee_time := apogee_time w; landed := landed w;
     timeline := timeline w; feed := feed w; clock := clock w |}.

Definition with_apogee_alt (alt : Q) (w : World) : World :=
  {| c := c w; state := state w; apogee_alt := Some alt;
     apogee_time := apogee_time w; landed := landed w;
     timeline := timeline w; feed := feed w; clock := clock w |}.

Definition with_apogee_time (t : Q) (w : World) : World :=
  {| c := c w; state := state w; apogee_alt := apogee_alt w;
     apogee_time := Some t; landed := landed w;
     timeline := timeline w; feed := feed w; clock := clock w |}.

Definition with_landed (b : bool) (w : World) : World :=
  {| c := c w; state := state w; apogee_alt := apogee_alt w;
     apogee_time := apogee_time w; landed := b;
     timeline := timeline w; feed := feed w; clock := clock w |}.

Definition with_timeline (t : list event) (w : World) : World :=
  {| c := c w; state := state w; apogee_alt := apogee_alt w;
     apogee_time := apogee_time w; landed := landed w;
     timeline := t; feed := feed w; clock := clock w |}.

Definition with_feed (f : list (gmap string value)) (w : World) : World :=
  {| c := c w; state := state w; apogee_alt := apogee_alt w;
     apogee_time := apogee_time w; landed := landed w;
     timeline := timeline w; feed := f; clock := clock w |}.

Definition with_clock (k : list Q) (w : World) : World :=
  {| c := c w; state := state w; apogee_alt := apogee_alt w;
     apogee_time := apogee_time w; landed := landed w;
     timeline := timeline w; feed := feed w; clock := k |}.

(** ** The monad of controller code

    A computation ends normally ([Done]), raises a Python exception
    ([Raised]), or is still waiting for telemetry or for the clock when
    the observed environment ends ([Starved]).  Each outcome carries the
    world at that point. *)

Inductive outcome (A : Type) : Type :=
  | Done (a : A) (w : World)
  | Raised (e : exn) (w : World)
  | Starved (w : World).
Arguments Done {A} a w.
Arguments Raised {A} e w.
Arguments Starved {A} w.

Definition M (A : Type) : Type := World -> outcome A.

#[global] Instance M_ret : MRet M := fun A a w => Done a w.

#[global] Instance M_bind : MBind M := fun A B k m w =>
  match m w with
  | Done a w' => k a w'
  | Raised e w' => Raised e w'
  | Starved w' => Starved w'
  end.

Definition raise {A} (e : exn) : M A := fun w => Raised e w.
Definition starve {A} : M A := fun w => Starved w.

Definition gets (A : Type) (proj : World -> A) : M A := fun w => Done (proj w) w.
Arguments gets {A} proj.
Definition modify (f : World -> World) : M unit := fun w => Done tt (f w).

Definition set_state (s : FlightState) : M unit := modify (with_state s).

(** [d[key]] on a device map. *)
Definition getitem (d : RocketClient -> gmap string Z) (key : string) : M Z :=
  fun w => match d (c w) !! key with
           | Some v => Done v w
           | None => Raised (KeyError key) w
           end.

Definition time_sleep (dt : Q) : M unit :=
  modify (fun w => with_timeline (timeline w ++ [Slept dt]) w).

Definition time_time : M Q :=
  fun w => match clock w with
           | [] => Starved w
           | t :: rest => Done t (with_clock rest w)
           end.

(** [cm.push(frame); cm.send()] *)
Definition cm_push_send (f : Frame) : M unit :=
  modify (fun w => with_timeline (timeline w ++ [Sent f]) w).

(** Number of telemetry reads the environment can still answer, plus one:
    a bound on the iterations of any polling loop, each of which reads
    at least once. *)
Definition polls : M nat := gets (fun w => S (length (feed w))).

Local Open Scope Q_scope.
Local Open Scope list_scope.

(** [a / b] on floats. *)
Definition py_div (a b : Q) : M Q :=
  if Qeq_bool b 0 then raise ZeroDivisionError else mret (a / b).

(** [x or d] where [x] is an optional float: [d] is evaluated only when
    [x] is [None] or zero. *)
Definition py_or (x : option Q) (d : M Q) : M Q :=
  match x with
  | Some q => if Qeq_bool q 0 then d else mret q
  | None => d
  end.

(** ** rocket_client.py: hardware commands and telemetry access *)

Definition set_servo_position (servo_name : string) (position : Z) : M unit :=
  dev ← getitem servo_map servo_name;
  cm_push_send
    {| destination := ROCKET; priority := LOW; action := SERVICE;
       source := SOFTWARE; device_type := SERVO; device_id := dev;
       data_type := INT16; operation := SERVO_POSITION;
       payload := [position] |}.

Definition relay_open (relay_name : string) : M unit :=
  dev ← getitem relay_map relay_name;
  cm_push_send
    {| destination := ROCKET; priority := LOW; action := SERVICE;
       source := SOFTWARE; device_type := RELAY; device_id := dev;
       data_type := FLOAT; operation := RELAY_OPEN; payload := [] |}.

Definition relay_close (relay_name : string) : M unit :=
  dev ← getitem relay_map relay_name;
  cm_push_send
    {| destination := ROCKET; priority := LOW; action := SERVICE;
       source := SOFTWARE; device_type := RELAY; device_id := dev;
       data_type := FLOAT; operation := RELAY_CLOSE; payload := [] |}.

(** [self.telemetry.get(key, default)]: the read sees the dictionary as
    the receive thread has left it at that moment. *)
Definition get_telem (key : string) (dflt : value) : M value :=
  fun w => match feed w with
           | [] => Starved w
           | d :: rest => Done (dict_get d key dflt) (with_feed rest w)
           end.

(** ** flight_controller.py *)

Definition value_of_default (dflt : option Q) : value :=
  match dflt with
  | Some q => VFloat q
  | None => VNone
  end.

Definition _telem (key : string) (dflt : option Q) : M (option Q) :=
  val ← get_telem key (value_of_default dflt);
  match py_float val with
  | Some x => mret (Some x)
  | None => mret dflt
  end.

(** Using the result of [_telem] as a number: [None] in arithmetic or in a
    comparison is a [TypeError]. *)
Definition as_float (x : option Q) : M Q :=
  match x with
  | Some q => mret q
  | None => raise TypeError
  end.

Definition fuel_level : M Q := _telem "fuel_level" (Some 0) ≫= as_float.
Definition oxidizer_level : M Q := _telem "oxidizer_level" (Some 0) ≫= as_float.
Definition oxidizer_pressure : M Q := _telem "oxidizer_pressure" (Some 0) ≫= as_float.
Definition altitude : M Q := _telem "altitude" (Some 0) ≫= as_float.

Definition vertical_speed (sample_dt : Q) : M Q :=
  h1 ← altitude;
  t1 ← time_time;
  time_sleep sample_dt;;
  h2 ← altitude;
  t2 ← time_time;
  py_div (h2 - h1) (py_max (t2 - t1) (1 # 1000000)).

Definition servo_is_closed (servo_name : string) : M bool :=
  pos ← _telem (servo_name +:+ "_pos") None;
  match pos with
  | None => mret false
  | Some p =>
      closed_target ← getitem servo_closed_pos servo_name;
      mret (Qlt_bool (Qabs (p - inject_Z closed_target)) 5)
  end.

(** *** Oxidizer and fuel loading *)

(** [while level() < 100.0: time.sleep(0.2)] *)
Fixpoint fill_loop (level : M Q) (n : nat) : M unit :=
  match n with
  | O => starve
  | S n' =>
      l ← level;
      if Qlt_bool l 100 then time_sleep (1 # 5);; fill_loop level n'
      else mret tt
  end.

Definition tank_oxidizer : M unit :=
  set_state TANKING_OX;;
  p ← getitem servo_open_pos "oxidizer_intake";
  set_servo_position "oxidizer_intake" p;;
  n ← polls; fill_loop oxidizer_level n;;
  p ← getitem servo_closed_pos "oxidizer_intake";
  set_servo_position "oxidizer_intake" p;;
  oxidizer_pressure;;
  set_state OX_READY.

Definition tank_fuel : M unit :=
  set_state TANKING_FUEL;;
  p ← getitem servo_open_pos "fuel_intake";
  set_servo_position "fuel_intake" p;;
  n ← polls; fill_loop fuel_level n;;
  p ← getitem servo_closed_pos "fuel_intake";
  set_servo_position "fuel_intake" p;;
  set_state FUEL_READY.

(** *** Oxidizer heating *)

Fixpoint heat_loop (n : nat) : M unit :=
  match n with
  | O => starve
  | S n' =>
      p ← oxidizer_pressure;
      if Qle_bool 55 p && Qle_bool p 65 then mret tt
      else if Qle_bool 90 p then set_state ABORT
      else time_sleep (1 # 5);; heat_loop n'
  end.

Definition heat_oxidizer : M unit :=
  set_state HEATING;;
  relay_open "oxidizer_heater";;
  n ← polls; heat_loop n;;
  relay_close "oxidizer_heater";;
  s ← gets state;
  if negb (FlightState_eqb s ABORT) then set_state ARMED else mret tt.

(** *** Ignition *)

Definition ignition_sequence : M unit :=
  s ← gets state;
  if FlightState_eqb s ABORT then mret tt else
  set_state IGNITION_SEQUENCE;;
  fuel_closed ← servo_is_closed "fuel_intake";
  intake_open ← (if negb fuel_closed then mret true
                 else ox_closed ← servo_is_closed "oxidizer_intake";
                      mret (negb ox_closed));
  if intake_open : bool then set_state ABORT else
  p ← oxidizer_pressure;
  if Qlt_bool p 40 then set_state ABORT else
  if Qlt_bool 65 p then set_state ABORT else
  pos ← getitem servo_open_pos "fuel_main";
  set_servo_position "fuel_main" pos;;
  time_sleep (1 # 5);;
  pos ← getitem servo_open_pos "oxidizer_main";
  set_servo_position "oxidizer_main" pos;;
  time_sleep (1 # 5);;
  relay_open "igniter";;
  set_state BOOST.

(** *** Ascent and apogee *)

Fixpoint arm_loop (start_alt : Q) (n : nat) : M unit :=
  match n with
  | O => starve
  | S n' =>
      time_sleep (1 # 2);;
      alt_now ← altitude;
      if Qlt_bool 1 (alt_now - start_alt) then mret tt
      else arm_loop start_alt n'
  end.

Fixpoint track_loop (last_alt : Q) (n : nat) : M unit :=
  match n with
  | O => starve
  | S n' =>
      time_sleep (1 # 2);;
      alt_now ← altitude;
      if Qlt_bool alt_now last_alt then
        modify (with_apogee_alt last_alt);;
        now ← time_time;
        modify (with_apogee_time now);;
        set_state APOGEE
      else track_loop alt_now n'
  end.

Definition climb_and_detect_apogee : M unit :=
  s ← gets state;
  if FlightState_eqb s ABORT then mret tt else
  set_state ASCENT;;
  start_alt ← altitude;
  n ← polls; arm_loop start_alt n;;
  last_alt ← altitude;
  n ← polls; track_loop last_alt n.

(** *** Descent, parachute and landing *)

Definition deploy_condition (v_down alt_now t_since_apogee : Q) : bool :=
  let low_enough := Qlt_bool alt_now 200 in
  let safe_speed := Qle_bool v_down 30 in
  let timeout := Qlt_bool 9 t_since_apogee in
  (safe_speed && low_enough) || timeout.

Fixpoint deploy_loop (n : nat) : M unit :=
  match n with
  | O => starve
  | S n' =>
      v ← vertical_speed (1 # 2);
      alt_now ← altitude;
      now ← time_time;
      at_apogee ← gets apogee_time;
      ref ← py_or at_apogee time_time;
      if deploy_condition (Qabs v) alt_now (now - ref) then
        relay_open "parachute";;
        set_state CHUTE_DEPLOYED
      else time_sleep (1 # 2);; deploy_loop n'
  end.

Fixpoint landing_loop (n : nat) : M unit :=
  match n with
  | O => starve
  | S n' =>
      alt1 ← altitude;
      time_sleep 1;;
      alt2 ← altitude;
      if Qlt_bool (Qabs (alt2 - alt1)) (1 # 2) then
        set_state LANDED;;
        modify (with_landed true)
      else landing_loop n'
  end.

Definition descent_and_chute : M unit :=
  s ← gets state;
  if FlightState_eqb s ABORT then mret tt else
  a ← gets apogee_alt;
  peak ← py_or a (mret 0);
  if Qlt_bool peak 5 then
    set_state LANDED;;
    modify (with_landed true)
  else
    set_state DESCENT;;
    n ← polls; deploy_loop n;;
    n ← polls; landing_loop n.

(** *** The mission *)

Definition unless_abort (next : M unit) : M unit :=
  s ← gets state;
  if FlightState_eqb s ABORT then mret tt else next.

Definition full_auto_mission : M unit :=
  tank_oxidizer;;
  unless_abort (
  tank_fuel;;
  unless_abort (
  heat_oxidizer;;
  unless_abort (
  ignition_sequence;;
  unless_abort (
  climb_and_detect_apogee;;
  unless_abort descent_and_chute)))).

(** ** Vocabulary of the statements *)

(** What [_telem key 0.0] returns when the dictionary holds [d]. *)
Definition reading (key : string) (d : gmap string value) : Q :=
  match py_float (default (VFloat 0) (d !! key)) with
  | Some x => x
  | None => 0
  end.

Definition sent_frames (evs : list event) : list Frame :=
  omap (fun e => match e with Sent f => Some f | Slept _ => None end) evs.

Definition relay_frame (op : OperationID) (dev : Z) : Frame :=
  {| destination := ROCKET; priority := LOW; action := SERVICE;
     source := SOFTWARE; device_type := RELAY; device_id := dev;
     data_type := FLOAT; operation := op; payload := [] |}.

Definition servo_frame (dev position : Z) : Frame :=
  {| destination := ROCKET; priority := LOW; action := SERVICE;
     source := SOFTWARE; device_type := SERVO; device_id := dev;
     data_type := INT16; operation := SERVO_POSITION;
     payload := [position] |}.

Definition in_window (p : Q) : bool := Qle_bool 55 p && Qle_bool p 65.


(** The world an outcome carries, and a change of world under an
    outcome. *)
Definition world_of {A} (o : outcome A) : World :=
  match o with
  | Done _ w => w
  | Raised _ w => w
  | Starved w => w
  end.

Definition on_world {A} (f : World -> World) (o : outcome A) : outcome A :=
  match o with
  | Done a w => Done a (f w)
  | Raised e w => Raised e (f w)
  | Starved w => Starved (f w)
  end.

(** A device configuration in the shape the client loads, and a
    controller as [FlightController.__init__] leaves it, facing a given
    environment.  Used for the concrete runs below. *)
Definition sample_client : RocketClient :=
  {| servo_map := {[ "fuel_intake" := 0%Z; "oxidizer_intake" := 1%Z;
                     "fuel_main" := 2%Z; "oxidizer_main" := 3%Z ]};
     relay_map := {[ "oxidizer_heater" := 0%Z; "igniter" := 1%Z;
                     "parachute" := 2%Z ]};
     sensor_map := {[ "fuel_level" := 0%Z; "oxidizer_level" := 1%Z;
                      "altitude" := 2%Z; "oxidizer_pressure" := 3%Z ]};
     servo_open_pos := {[ "fuel_intake" := 0%Z; "oxidizer_intake" := 0%Z;
                          "fuel_main" := 0%Z; "oxidizer_main" := 0%Z ]};
     servo_closed_pos := {[ "fuel_intake" := 100%Z; "oxidizer_intake" := 100%Z;
                            "fuel_main" := 100%Z; "oxidizer_main" := 100%Z ]} |}.

Definition controller (f : list (gmap string value)) (k : list Q) : World :=
  {| c := sample_client; state := IDLE; apogee_alt := None;
     apogee_time := None; landed := false; timeline := [];
     feed := f; clock := k |}.

Definition pressure (p : Q) : gmap string value :=
  {[ "oxidizer_pressure" := VFloat p ]}.

Definition altitude_at (h : Q) : gmap string value :=
  {[ "altitude" := VFloat h ]}.

Definition intake_positions (fuel ox : Z) : gmap string value :=
  {[ "fuel_intake_pos" := VInt fuel; "oxidizer_intake_pos" := VInt ox ]}.











(** A controller past apogee (500 m at time 1000), about to poll for the
    parachute. *)
Definition descending (f : list (gmap string value)) (k : list Q) : World :=
  with_state DESCENT (with_apogee_time 1000 (with_apogee_alt 500 (controller f k))).

Definition level (key : string) (l : Q) : gmap string value :=
  {[ key := VFloat l ]}.

(** A dictionary with every feed present, as the receive thread builds it
    up. *)
Definition telemetry (ox_level fuel_lvl ox_pressure h : Q) (fuel_pos ox_pos : Z)
    : gmap string value :=
  {[ "oxidizer_level" := VFloat ox_level; "fuel_level" := VFloat fuel_lvl;
     "oxidizer_pressure" := VFloat ox_pressure; "altitude" := VFloat h;
     "fuel_intake_pos" := VInt fuel_pos; "oxidizer_intake_pos" := VInt ox_pos ]}.

(** ** Vocabulary of the further properties *)

(** From [w] to [w'] the controller only read telemetry, read the clock or
    slept: the device maps, the state, the apogee record and the landed
    flag are as they were, and [evs] was added to the timeline. *)
Definition quiet (w w' : World) (evs : list event) : Prop :=
  c w' = c w /\ state w' = state w /\
  apogee_alt w' = apogee_alt w /\ apogee_time w' = apogee_time w /\
  landed w' = landed w /\
  timeline w' = timeline w ++ evs.

(** From [w] to [w'] the device maps are as they were and the frames
    handed to the communication manager are exactly [frames]. *)
Definition sent_since (w w' : World) (frames : list Frame) : Prop :=
  c w' = c w /\
  exists evs, timeline w' = timeline w ++ evs /\ sent_frames evs = frames.

(** The frame [set_servo_position name pos[name]] sends, if [name] is in
    both maps; the frame of a relay command, if [name] is a relay. *)
Definition servo_command (cl : RocketClient) (name : string)
    (pos : RocketClient -> gmap string Z) : option Frame :=
  p ← pos cl !! name; dev ← servo_map cl !! name; Some (servo_frame dev p).

Definition relay_command (cl : RocketClient) (name : string)
    (op : OperationID) : option Frame :=
  dev ← relay_map cl !! name; Some (relay_frame op dev).

(** Only sleeps of [dt]. *)
Definition sleeps (dt : Q) (evs : list event) : Prop :=
  exists k, evs = replicate k (Slept dt).

(** A computation that, from any world and whatever its outcome, is quiet
    up to sleeps and never raises. *)
Definition silent {A} (m : M A) : Prop :=
  forall w,
    (exists evs, sent_frames evs = [] /\ quiet w (world_of (m w)) evs) /\
    forall e w', m w <> Raised e w'.

(** What the deploy loop can have done from [w], by outcome: returned
    with the parachute commanded once; raised because the parachute relay
    is not configured; or still polling. *)
Definition deploy_post (w : World) (o : outcome unit) : Prop :=
  match o with
  | Done _ w' =>
      state w' = CHUTE_DEPLOYED /\ landed w' = landed w /\
      exists p, relay_command (c w) "parachute" RELAY_OPEN = Some p /\
                sent_since w w' [p]
  | Raised e w' =>
      e = KeyError "parachute" /\ relay_map (c w) !! "parachute" = None /\
      state w' = state w /\ sent_since w w' []
  | Starved w' =>
      state w' = state w /\ landed w' = landed w /\ sent_since w w' []
  end.

(** What the landing loop can have done from [w]: landed, or still
    sampling; it never raises and sends nothing. *)
Definition landing_post (w : World) (o : outcome unit) : Prop :=
  match o with
  | Done _ w' => state w' = LANDED /\ landed w' = true /\ sent_since w w' []
  | Raised _ _ => False
  | Starved w' =>
      state w' = state w /\ landed w' = landed w /\ sent_since w w' []
  end.

(** [(self.apogee_alt or 0.0) < 5.0] *)
Definition low_apogee (a : option Q) : bool :=
  match a with
  | Some q => if Qeq_bool q 0 then true else Qlt_bool q 5
  | None => true
  end.



(** The three frames of a successful ignition, if the two main valves and
    the igniter are configured. *)
Definition ignition_commands (cl : RocketClient) : option (list Frame) :=
  fm ← servo_command cl "fuel_main" servo_open_pos;
  om ← servo_command cl "oxidizer_main" servo_open_pos;
  ig ← relay_command cl "igniter" RELAY_OPEN;
  Some [fm; om; ig].

(** The six frames of the ground phases: both intakes opened and closed,
    the heater switched on and off. *)
Definition ground_commands (cl : RocketClient) : option (list Frame) :=
  oo ← servo_command cl "oxidizer_intake" servo_open_pos;
  oc ← servo_command cl "oxidizer_intake" servo_closed_pos;
  fo ← servo_command cl "fuel_intake" servo_open_pos;
  fc ← servo_command cl "fuel_intake" servo_closed_pos;
  on ← relay_command cl "oxidizer_heater" RELAY_OPEN;
  off ← relay_command cl "oxidizer_heater" RELAY_CLOSE;
  Some [oo; oc; fo; fc; on; off].

(** Worlds and device maps for the concrete runs: a world with other
    device maps, and device maps with one servo or one relay left out. *)
Definition with_client (cl : RocketClient) (w : World) : World :=
  {| c := cl; state := state w; apogee_alt := apogee_alt w;
     apogee_time := apogee_time w; landed := landed w;
     timeline := timeline w; feed := feed w; clock := clock w |}.

Definition without_servo (name : string) (cl : RocketClient) : RocketClient :=
  {| servo_map := delete name (servo_map cl);
     relay_map := relay_map cl;
     sensor_map := sensor_map cl;
     servo_open_pos := delete name (servo_open_pos cl);
     servo_closed_pos := delete name (servo_closed_pos cl) |}.

Definition without_relay (name : string) (cl : RocketClient) : RocketClient :=
  {| servo_map := servo_map cl;
     relay_map := delete name (relay_map cl);
     sensor_map := sensor_map cl;
     servo_open_pos := servo_open_pos cl;
     servo_closed_pos := servo_closed_pos cl |}.

(** Ready for ignition (intakes closed, 50 bar), but with no
    [oxidizer_main] in the device maps. *)
Definition no_oxidizer_main : World :=
  with_client (without_servo "oxidizer_main" sample_client)
    (controller [intake_positions 100 100; intake_positions 100 100;
                 pressure 50] []).

(** Past apogee at 20 m/s and 150 m, but with no [parachute] relay in the
    device maps. *)
Definition no_parachute : World :=
  with_client (without_relay "parachute" sample_client)
    (with_state APOGEE (with_apogee_time 1000 (with_apogee_alt 500
       (controller (map altitude_at [160; 150; 150]) [1003; 2007 # 2; 2007 # 2])))).

(** What a sensor accessor makes of the telemetry dictionary [d]: the
    number stored under [key], and zero when nothing, [None] or something
    that is not a number is stored there. *)
Definition sensor_value (key : string) (d : gmap string value) : Q :=
  match d !! key with
  | Some (VInt n) => inject_Z n
  | Some (VFloat x) => x
  | Some VNone | Some VOther | None => 0
  end.

(** [m] reads the sensor [key]: one look at the telemetry, nothing else
    touched, no exception. *)
Definition reads_sensor (m : M Q) (key : string) : Prop :=
  forall w,
    m w = match feed w with
          | [] => Starved w
          | d :: rest => Done (sensor_value key d) (with_feed rest w)
          end.

(** ** rocket_client.py: the device maps of [RocketClient.__init__]

    [yaml.safe_load] returns nested dictionaries.  A category
    ([cfg["devices"]["servo"]], ...) is modelled by its [items()]: the
    list of its entries in file order, each a name and the dictionary of
    that device's fields.  Opening the connection, creating the telemetry
    store and starting the receive thread are not modelled. *)

Inductive result (A : Type) : Type :=
  | Ok (a : A)
  | Err (e : exn).
Arguments Ok {A} a.
Arguments Err {A} e.

(** [d[key]] in code that has no world to carry. *)
Definition item {V} (d : gmap string V) (key : string) : result V :=
  match d !! key with
  | Some v => Ok v
  | None => Err (KeyError key)
  end.

Definition and_then {A B} (r : result A) (k : A -> result B) : result B :=
  match r with
  | Ok a => k a
  | Err e => Err e
  end.

Definition empty_client : RocketClient :=
  {| servo_map := ∅; relay_map := ∅; sensor_map := ∅;
     servo_open_pos := ∅; servo_closed_pos := ∅ |}.

(** The three loops of the constructor. *)
Fixpoint load_servos (items : list (string * gmap string Z)) (cl : RocketClient)
    : result RocketClient :=
  match items with
  | [] => Ok cl
  | (name, servo_cfg) :: rest =>
      and_then (item servo_cfg "device_id") (fun dev =>
      and_then (item servo_cfg "open_pos") (fun open =>
      and_then (item servo_cfg "closed_pos") (fun closed =>
      load_servos rest
        {| servo_map := <[name := dev]> (servo_map cl);
           relay_map := relay_map cl;
           sensor_map := sensor_map cl;
           servo_open_pos := <[name := open]> (servo_open_pos cl);
           servo_closed_pos := <[name := closed]> (servo_closed_pos cl) |})))
  end.

Fixpoint load_relays (items : list (string * gmap string Z)) (cl : RocketClient)
    : result RocketClient :=
  match items with
  | [] => Ok cl
  | (name, relay_cfg) :: rest =>
      and_then (item relay_cfg "device_id") (fun dev =>
      load_relays rest
        {| servo_map := servo_map cl;
           relay_map := <[name := dev]> (relay_map cl);
           sensor_map := sensor_map cl;
           servo_open_pos := servo_open_pos cl;
           servo_closed_pos := servo_closed_pos cl |})
  end.

Fixpoint load_sensors (items : list (string * gmap string Z)) (cl : RocketClient)
    : result RocketClient :=
  match items with
  | [] => Ok cl
  | (name, sensor_cfg) :: rest =>
      and_then (item sensor_cfg "device_id") (fun dev =>
      load_sensors rest
        {| servo_map := servo_map cl;
           relay_map := relay_map cl;
           sensor_map := <[name := dev]> (sensor_map cl);
           servo_open_pos := servo_open_pos cl;
           servo_closed_pos := servo_closed_pos cl |})
  end.

(** [RocketClient.__init__], as far as the device maps go.  [cfg] is the
    loaded file: [cfg["devices"]] maps a category to its items. *)
Definition RocketClient_init
    (cfg : gmap string (gmap string (list (string * gmap string Z))))
    : result RocketClient :=
  and_then (item cfg "devices") (fun devices =>
  and_then (item devices "servo") (fun servos =>
  and_then (load_servos servos empty_client) (fun cl1 =>
  and_then (item devices "relay") (fun relays =>
  and_then (load_relays relays cl1) (fun cl2 =>
  and_then (item devices "sensor") (fun sensors =>
  load_sensors sensors cl2)))))).

(** [get_servo_target_positions]: for each name of [servo_map], its open
    and closed position (the two-entry dictionary of the source is a
    pair here).  With several names missing a position, the source raises
    for the first in insertion order, this model for the first in the
    order of [map_fold]. *)
Definition get_servo_target_positions (cl : RocketClient)
    : result (gmap string (Z * Z)) :=
  map_fold
    (fun name (_ : Z) acc =>
       and_then acc (fun r =>
       and_then (item (servo_open_pos cl) name) (fun open =>
       and_then (item (servo_closed_pos cl) name) (fun closed =>
       Ok (<[name := (open, closed)]> r)))))
    (Ok ∅) (servo_map cl).

(** A client whose servo [name] has a device but neither position. *)
Definition without_servo_positions (name : string) (cl : RocketClient)
    : RocketClient :=
  {| servo_map := servo_map cl;
     relay_map := relay_map cl;
     sensor_map := sensor_map cl;
     servo_open_pos := delete name (servo_open_pos cl);
     servo_closed_pos := delete name (servo_closed_pos cl) |}.

(** A device entry with all its fields, and the sample configuration as
    a file would give it. *)
Definition servo_entry (dev open closed : Z) : gmap string Z :=
  {[ "device_id" := dev; "open_pos" := open; "closed_pos" := closed ]}.

Definition device_entry (dev : Z) : gmap string Z := {[ "device_id" := dev ]}.

Definition sample_config
    : gmap string (gmap string (list (string * gmap string Z))) :=
  {[ "devices" :=
       {[ "servo" := [("fuel_intake", servo_entry 0 0 100);
                      ("oxidizer_intake", servo_entry 1 0 100);
                      ("fuel_main", servo_entry 2 0 100);
                      ("oxidizer_main", servo_entry 3 0 100)];
          "relay" := [("oxidizer_heater", device_entry 0);
                      ("igniter", device_entry 1);
                      ("parachute", device_entry 2)];
          "sensor" := [("fuel_level", device_entry 0);
                       ("oxidizer_level", device_entry 1);
                       ("altitude", device_entry 2);
                       ("oxidizer_pressure", device_entry 3)] ]} ]}.

(** An entry of the servo category with its three fields; an entry of the
    relay or sensor category with its device identifier. *)
Definition complete_servo (e : string * gmap string Z) : Prop :=
  is_Some (e.2 !! "device_id") /\ is_Some (e.2 !! "open_pos") /\
  is_Some (e.2 !! "closed_pos").

Definition has_device_id (e : string * gmap string Z) : Prop :=
  is_Some (e.2 !! "device_id").

(** * Properties *)

(** Reads of named sensors are never unfolded by [cbn]: a lookup of a
    literal key in an unknown dictionary has no useful normal form. *)
Arguments reading : simpl never.
Arguments servo_is_closed : simpl never.
Arguments oxidizer_pressure : simpl never.
Arguments oxidizer_level : simpl never.
Arguments fuel_level : simpl never.
Arguments altitude : simpl never.
Arguments getitem : simpl never.

(** ** Comparisons and sensor reads *)

Lemma Qle_bool_false (a b : Q) : Qle_bool a b = false <-> b < a.
Proof.
  split; intros H.
  - apply Qnot_le_lt. intros Hle. apply Qle_bool_iff in Hle. congruence.
  - destruct (Qle_bool a b) eqn:E; [|reflexivity].
    apply Qle_bool_iff in E. exfalso. apply (Qlt_not_le _ _ H E).
Qed.

Lemma Qlt_bool_iff (a b : Q) : Qlt_bool a b = true <-> a < b.
Proof.
  unfold Qlt_bool. rewrite negb_true_iff. apply Qle_bool_false.
Qed.

Lemma Qlt_bool_false (a b : Q) : Qlt_bool a b = false <-> b <= a.
Proof.
  unfold Qlt_bool. rewrite negb_false_iff. apply Qle_bool_iff.
Qed.

Lemma sensor_read key d rest w :
  feed w = d :: rest ->
  (_telem key (Some 0) ≫= as_float) w = Done (reading key d) (with_feed rest w).
Proof.
  intros Hf. cbv [mbind M_bind _telem get_telem dict_get reading].
  rewrite Hf. cbv [value_of_default].
  destruct (py_float (default (VFloat 0) (d !! key))); reflexivity.
Qed.

Lemma sensor_starved key w :
  feed w = [] -> (_telem key (Some 0) ≫= as_float) w = Starved w.
Proof.
  intros Hf. cbv [mbind M_bind _telem get_telem].
  rewrite Hf. reflexivity.
Qed.

Lemma sent_frames_app evs1 evs2 :
  sent_frames (evs1 ++ evs2) = sent_frames evs1 ++ sent_frames evs2.
Proof. apply omap_app. Qed.

Lemma sent_frames_sleeps k dt : sent_frames (replicate k (Slept dt)) = [].
Proof. induction k as [|k IH]; [reflexivity | exact IH]. Qed.


Lemma bind_unfold {A B} (m : M A) (k : A -> M B) (w : World) :
  (m ≫= k) w =
    match m w with
    | Done a w' => k a w'
    | Raised e w' => Raised e w'
    | Starved w' => Starved w'
    end.
Proof. reflexivity. Qed.

Lemma altitude_read d rest w :
  feed w = d :: rest ->
  altitude w = Done (reading "altitude" d) (with_feed rest w).
Proof. apply sensor_read. Qed.

Lemma altitude_starved w : feed w = [] -> altitude w = Starved w.
Proof. apply sensor_starved. Qed.


(** Two worlds with the same fields are the same world. *)
Lemma world_eq (w1 w2 : World) :
  c w1 = c w2 -> state w1 = state w2 ->
  apogee_alt w1 = apogee_alt w2 -> apogee_time w1 = apogee_time w2 ->
  landed w1 = landed w2 -> timeline w1 = timeline w2 ->
  feed w1 = feed w2 -> clock w1 = clock w2 ->
  w1 = w2.
Proof.
  destruct w1, w2. cbn [c state apogee_alt apogee_time landed timeline feed clock].
  intros; subst; reflexivity.
Qed.

Ltac fields :=
  cbn [c state apogee_alt apogee_time landed timeline feed clock
       with_state with_apogee_alt with_apogee_time with_landed
       with_timeline with_feed with_clock].

Ltac same_world := apply world_eq; fields; try reflexivity.

(** ** TelemetryStore *)

Section telemetry_store.
Import TelemetryStore.

Lemma alloc_fresh d h : (alloc d h).1 ∉ dom h.
Proof. apply is_fresh. Qed.

Lemma run_snoc self calls o h :
  run self (calls ++ [o]) h = step self (run self calls h) o.
Proof. unfold run. by rewrite foldl_app. Qed.

Lemma last_write_snoc key calls o :
  last_write key (calls ++ [o]) =
    match o with
    | Update k v => if String.eqb k key then Some v else last_write key calls
    | _ => last_write key calls
    end.
Proof. unfold last_write. by rewrite foldl_app. Qed.

(** No call on the store touches any other dictionary that already
    exists. *)
Lemma step_other self h o l :
  l ∈ dom h -> l <> _data self -> step self h o !! l = h !! l.
Proof.
  intros Hl Hne. destruct o as [key v| |]; cbn [step]; [|reflexivity|].
  - unfold update, dict_setitem. by rewrite lookup_alter_ne.
  - unfold get_all, dict_copy, alloc. cbn. rewrite lookup_insert_ne; [done|].
    intros <-. by apply (is_fresh (dom h)).
Qed.

Lemma step_dom self h o : dom h ⊆ dom (step self h o).
Proof.
  destruct o as [key v| |]; cbn [step]; [|done|].
  - unfold update, dict_setitem. intros l. rewrite !elem_of_dom.
    destruct (decide (l = _data self)) as [->|Hne].
    + rewrite lookup_alter_eq. intros [d ->]. by eexists.
    + by rewrite lookup_alter_ne.
  - unfold get_all, dict_copy, alloc. cbn [snd]. rewrite dom_insert. set_solver.
Qed.

Lemma run_other self calls : forall h l,
  l ∈ dom h -> l <> _data self -> run self calls h !! l = h !! l.
Proof.
  induction calls as [|o calls IH] using rev_ind; intros h l Hl Hne; [done|].
  rewrite run_snoc, step_other, IH; auto.
  clear IH. induction calls as [|o' calls IH] using rev_ind; [done|].
  rewrite run_snoc. by apply step_dom.
Qed.

(** The store's own dictionary after a sequence of calls: each key holds
    its last write, or what it held before. *)
Lemma run_store self calls : forall h d,
  h !! _data self = Some d ->
  exists d', run self calls h !! _data self = Some d' /\
    forall key, d' !! key =
      match last_write key calls with
      | Some v => Some v
      | None => d !! key
      end.
Proof.
  induction calls as [|o calls IH] using rev_ind; intros h d Hd.
  { exists d. split; [exact Hd | reflexivity]. }
  destruct (IH h d Hd) as (d1 & Hd1 & Hkeys).
  rewrite run_snoc. destruct o as [k v| |]; cbn [step].
  - exists (<[k := v]> d1). unfold update, dict_setitem.
    rewrite lookup_alter_eq, Hd1. split; [reflexivity|].
    intros key'. rewrite last_write_snoc.
    destruct (String.eqb_spec k key') as [->|Hne].
    + by rewrite lookup_insert_eq.
    + by rewrite lookup_insert_ne.
  - exists d1. split; [exact Hd1|]. intros key'. by rewrite last_write_snoc.
  - exists d1. split.
    + unfold get_all, dict_copy, alloc. cbn [snd]. rewrite lookup_insert_ne; [done|].
      intros Heq. apply (is_fresh (dom (run self calls h))).
      rewrite Heq. apply elem_of_dom. by eexists.
    + intros key. by rewrite last_write_snoc.
Qed.

(** C9.  (1) On a store just created, after any sequence of calls,
    [get key default] returns the value of the last [update] of [key],
    or [default] if there was none.  (2) Two [get_all] in a row return
    two distinct new dictionaries, both with the store's contents.
    (3) A dictionary returned by [get_all] keeps its contents through
    any later calls on the store.  (4) Writing into a dictionary
    returned by [get_all] changes no answer of [get]. *)
Theorem telemetry_store_contract :
  (forall h calls key dflt,
     let (self, h0) := init h in
     get self key dflt (run self calls h0) =
       default dflt (last_write key calls)) /\
  (forall self h d,
     h !! _data self = Some d ->
     let (l1, h1) := get_all self h in
     let (l2, h2) := get_all self h1 in
     l1 <> _data self /\ l2 <> _data self /\ l1 <> l2 /\
     h2 !! l1 = Some d /\ h2 !! l2 = Some d) /\
  (forall self h d calls,
     h !! _data self = Some d ->
     let (l1, h1) := get_all self h in
     run self calls h1 !! l1 = Some d) /\
  (forall self h d k v key dflt,
     h !! _data self = Some d ->
     let (l1, h1) := get_all self h in
     get self key dflt (dict_setitem l1 k v h1) = get self key dflt h).
Proof.
  split; [|split; [|split]].
  - intros h calls key dflt. unfold init, alloc.
    set (self := {| _data := fresh (dom h) |}).
    destruct (run_store self calls (<[fresh (dom h) := ∅]> h) ∅)
      as (d' & Hd' & Hkeys).
    { cbn. apply lookup_insert_eq. }
    unfold get, dict_get. rewrite Hd'. cbn. rewrite Hkeys.
    destruct (last_write key calls); reflexivity.
  - intros self h d Hd. unfold get_all, dict_copy, alloc. rewrite Hd. cbn.
    pose proof (is_fresh (dom h)) as Hf1.
    pose proof (is_fresh (dom (<[fresh (dom h) := d]> h))) as Hf2.
    assert (Hself : _data self ∈ dom h) by (apply elem_of_dom; by eexists).
    assert (Hne1 : fresh (dom h) <> _data self) by congruence.
    set (l1 := fresh (dom h)) in *.
    assert (Hin : <[l1 := d]> h !! _data self = Some d)
      by (by rewrite lookup_insert_ne).
    rewrite Hin. cbn [default from_option id].
    set (l2 := fresh (dom (<[l1 := d]> h))) in *.
    assert (Hne12 : l1 <> l2).
    { intros Heq. apply Hf2. rewrite <- Heq, dom_insert. set_solver. }
    assert (Hne2 : l2 <> _data self).
    { intros Heq. apply Hf2. rewrite Heq, dom_insert. set_solver. }
    repeat split; auto.
    + by rewrite lookup_insert_ne, lookup_insert_eq.
    + by rewrite lookup_insert_eq.
  - intros self h d calls Hd. unfold get_all, dict_copy, alloc. rewrite Hd. cbn.
    assert (Hself : _data self ∈ dom h) by (apply elem_of_dom; by eexists).
    rewrite run_other.
    + apply lookup_insert_eq.
    + rewrite dom_insert. set_solver.
    + intros Heq. apply (is_fresh (dom h)). by rewrite Heq.
  - intros self h d k v key dflt Hd. unfold get_all, dict_copy, alloc.
    rewrite Hd. cbn. unfold get, dict_setitem.
    assert (Hself : _data self ∈ dom h) by (apply elem_of_dom; by eexists).
    assert (Hne : fresh (dom h) <> _data self).
    { intros Heq. apply (is_fresh (dom h)). by rewrite Heq. }
    by rewrite lookup_alter_ne, lookup_insert_ne.
Qed.

End telemetry_store.

(** A snapshot taken at 5 m still reads 5 m after the store moved on to
    9 m. *)
Lemma telemetry_store_contract_witness :
  let h : gmap nat (gmap string value) := {[ 0%nat := altitude_at 5 ]} in
  let self := {| TelemetryStore._data := 0 |} in
  let (l1, h1) := TelemetryStore.get_all self h in
  TelemetryStore.run self [TelemetryStore.Update "altitude" (VFloat 9)] h1 !! l1 =
    Some (altitude_at 5).
Proof.
  destruct telemetry_store_contract as (_ & _ & Hsnapshot & _).
  apply (Hsnapshot {| TelemetryStore._data := 0 |}
           {[ 0%nat := altitude_at 5 ]} (altitude_at 5)
           [TelemetryStore.Update "altitude" (VFloat 9)]).
  reflexivity.
Defined.

Example telemetry_store_last_write_wins :
  let (self, h0) := TelemetryStore.init ∅ in
  let h := TelemetryStore.run self
             [TelemetryStore.Update "altitude" (VFloat 5); TelemetryStore.GetAll;
              TelemetryStore.Update "altitude" (VFloat 9)] h0 in
  TelemetryStore.get self "altitude" VNone h = VFloat 9 /\
  TelemetryStore.get self "fuel_level" VNone h = VNone.
Proof. vm_compute. split; reflexivity. Qed.

(** ** Commands to unknown devices *)

(** C8, as the code has it.  A servo command for a name outside
    [servo_map], or a relay command for a name outside [relay_map], raises
    [KeyError] for that name at the lookup, before any frame is built: the
    world, and with it the timeline, is left as it was. *)
Theorem unknown_device_raises_KeyError (w : World) (name : string) :
  (servo_map (c w) !! name = None ->
   forall position, set_servo_position name position w = Raised (KeyError name) w) /\
  (relay_map (c w) !! name = None ->
   relay_open name w = Raised (KeyError name) w /\
   relay_close name w = Raised (KeyError name) w).
Proof.
  cbv [set_servo_position relay_open relay_close mbind M_bind getitem].
  split; intros ->; auto.
Qed.

Lemma unknown_device_raises_KeyError_witness :
  set_servo_position "warp_drive" 7 (controller [] []) =
    Raised (KeyError "warp_drive") (controller [] []) /\
  relay_open "warp_drive" (controller [] []) =
    Raised (KeyError "warp_drive") (controller [] []).
Proof.
  destruct (unknown_device_raises_KeyError (controller [] []) "warp_drive")
    as [Hservo Hrelay].
  split.
  - apply Hservo. reflexivity.
  - apply Hrelay. reflexivity.
Defined.

(** C8, as the spec words it, fails: the exception raised for an unknown
    servo name is not of a class [UnknownDeviceError]. *)
Lemma unknown_device_error_is_not_raised :
  ~ exists e w', set_servo_position "warp_drive" 7 (controller [] []) = Raised e w' /\
                 exn_class e = "UnknownDeviceError".
Proof.
  intros (e & w' & Hrun & Hclass).
  change (set_servo_position "warp_drive" 7 (controller [] []))
    with (@Raised unit (KeyError "warp_drive") (controller [] [])) in Hrun.
  injection Hrun as <- _. discriminate Hclass.
Qed.

(** ** Closed-position check *)

(** C7.  With the dictionary [d] in front of it, [servo_is_closed name]
    returns [false] when [d] has no entry for [name + "_pos"]; and when
    [name] has a configured closed position [ct], it returns normally, and
    returns [true] exactly when [d] has an entry for [name + "_pos"] that
    [float()] accepts and whose distance to [ct] is below 5. *)
Theorem servo_is_closed_spec (w : World) (name : string)
    (d : gmap string value) (rest : list (gmap string value)) :
  feed w = d :: rest ->
  (d !! (name +:+ "_pos") = None ->
   servo_is_closed name w = Done false (with_feed rest w)) /\
  (forall ct, servo_closed_pos (c w) !! name = Some ct ->
     exists b, servo_is_closed name w = Done b (with_feed rest w) /\
       (b = true <->
        exists v p, d !! (name +:+ "_pos") = Some v /\ py_float v = Some p /\
                    Qabs (p - inject_Z ct) < 5)).
Proof.
  intros Hf.
  cbv [servo_is_closed mbind M_bind _telem get_telem dict_get getitem mret M_ret].
  rewrite Hf. cbn [value_of_default c with_feed].
  split.
  - intros ->. reflexivity.
  - intros ct Hct.
    destruct (d !! (name +:+ "_pos")) as [v|] eqn:Hv;
      cbn [from_option id py_float].
    + destruct (py_float v) as [p|] eqn:Hp; cbn [mret M_ret c with_feed].
      * rewrite Hct. eexists. split; [reflexivity|].
        rewrite Qlt_bool_iff. split.
        -- intros Hlt. exists v, p. auto.
        -- intros (v' & p' & [= <-] & Hp' & Hlt). congruence.
      * eexists. split; [reflexivity|]. split; [discriminate|].
        intros (v' & p' & [= <-] & Hp' & _). congruence.
    + eexists. split; [reflexivity|]. split; [discriminate|].
      intros (v' & p' & [=] & _).
Qed.

Lemma servo_is_closed_spec_witness :
  servo_is_closed "fuel_intake" (controller [∅] []) = Done false (controller [] []) /\
  exists b, servo_is_closed "fuel_intake"
              (controller [intake_positions 96 100] []) = Done b (controller [] []) /\
    (b = true <->
     exists v p, intake_positions 96 100 !! ("fuel_intake" +:+ "_pos") = Some v /\
                 py_float v = Some p /\ Qabs (p - inject_Z 100) < 5).
Proof.
  split.
  - apply (servo_is_closed_spec (controller [∅] []) "fuel_intake" ∅ []);
      reflexivity.
  - apply (servo_is_closed_spec (controller [intake_positions 96 100] [])
             "fuel_intake" (intake_positions 96 100) []);
      reflexivity.
Defined.

Example servo_is_closed_at_tolerance :
  servo_is_closed "fuel_intake" (controller [intake_positions 95 100] []) =
    Done false (controller [] []) /\
  servo_is_closed "fuel_intake" (controller [intake_positions 104 100] []) =
    Done true (controller [] []).
Proof. split; reflexivity. Qed.

(** A servo that reports its position but has no configured closed
    position is a [KeyError], not an answer. *)
Example servo_is_closed_unconfigured :
  servo_is_closed "vent" (controller [{[ "vent_pos" := VInt 3 ]}] []) =
    Raised (KeyError "vent") (controller [] []).
Proof. reflexivity. Qed.

(** ** Vertical speed *)

Lemma py_max_floor (a : Q) : (1 # 1000000) <= py_max a (1 # 1000000).
Proof.
  unfold py_max. destruct (Qlt_bool a (1 # 1000000)) eqn:E.
  - apply Qle_refl.
  - by apply Qlt_bool_false in E.
Qed.


Lemma py_max_positive (a : Q) : 0 < py_max a (1 # 1000000).
Proof.
  apply Qlt_le_trans with (1 # 1000000); [reflexivity | apply py_max_floor].
Qed.

Lemma py_div_by_max (a b : Q) (w : World) :
  py_div a (py_max b (1 # 1000000)) w = Done (a / py_max b (1 # 1000000)) w.
Proof.
  unfold py_div. destruct (Qeq_bool _ 0) eqn:E; [|reflexivity].
  apply Qeq_bool_iff in E. pose proof (py_max_positive b) as Hpos.
  rewrite E in Hpos. by apply Qlt_irrefl in Hpos.
Qed.

(** Where [vertical_speed] gets with what the environment offers. *)
Lemma vertical_speed_unfold (dt : Q) (w : World) :
  vertical_speed dt w =
    match feed w with
    | [] => Starved w
    | d1 :: f1 =>
        let w1 := with_feed f1 w in
        match clock w with
        | [] => Starved w1
        | t1 :: k1 =>
            let w2 := with_timeline (timeline w ++ [Slept dt]) (with_clock k1 w1) in
            match f1 with
            | [] => Starved w2
            | d2 :: f2 =>
                let w3 := with_feed f2 w2 in
                match k1 with
                | [] => Starved w3
                | t2 :: k2 =>
                    Done ((reading "altitude" d2 - reading "altitude" d1) /
                          py_max (t2 - t1) (1 # 1000000))
                         (with_clock k2 w3)
                end
            end
        end
    end.
Proof.
  unfold vertical_speed. rewrite bind_unfold.
  destruct (feed w) as [|d1 f1] eqn:Hf.
  { by rewrite altitude_starved. }
  rewrite (altitude_read _ _ _ Hf). cbv zeta.
  rewrite bind_unfold. unfold time_time at 1. cbn [clock with_feed].
  destruct (clock w) as [|t1 k1]; [reflexivity|].
  rewrite bind_unfold. unfold time_sleep at 1, modify at 1.
  cbn [timeline with_clock with_feed].
  rewrite bind_unfold.
  destruct f1 as [|d2 f2].
  { by rewrite altitude_starved. }
  erewrite altitude_read by reflexivity.
  rewrite bind_unfold. unfold time_time at 1.
  cbn [clock with_feed with_timeline with_clock].
  destruct k1 as [|t2 k2]; [reflexivity|].
  rewrite py_div_by_max. reflexivity.
Qed.



(** Two equal timestamps: the speed is the altitude difference times a
    million. *)
Example vertical_speed_equal_timestamps :
  vertical_speed (1 # 2)
    (controller [altitude_at 120; altitude_at 110] [1000; 1000]) =
  Done (-10 / (1 # 1000000))
       (with_timeline [Slept (1 # 2)] (controller [] [])).
Proof. reflexivity. Qed.

(** ** Oxidizer heating *)

Lemma heat_loop_step n w d rest :
  feed w = d :: rest ->
  heat_loop (S n) w =
    let w1 := with_feed rest w in
    let p := reading "oxidizer_pressure" d in
    if in_window p then Done tt w1
    else if Qle_bool 90 p then Done tt (with_state ABORT w1)
    else heat_loop n (with_timeline (timeline w1 ++ [Slept (1 # 5)]) w1).
Proof.
  intros Hf. cbn [heat_loop]. unfold mbind at 1. unfold M_bind at 1.
  unfold oxidizer_pressure. rewrite (sensor_read _ _ _ _ Hf). cbv zeta.
  unfold in_window.
  destruct (Qle_bool 55 _ && Qle_bool _ 65); [reflexivity|].
  destruct (Qle_bool 90 _); reflexivity.
Qed.


Lemma heat_loop_starved n w : feed w = [] -> heat_loop n w = Starved w.
Proof.
  intros Hf. destruct n as [|n]; [reflexivity|].
  cbn [heat_loop]. unfold mbind at 1. unfold M_bind at 1.
  unfold oxidizer_pressure. rewrite (sensor_starved _ _ Hf). reflexivity.
Qed.

(** However the loop ends, it has only slept: the device maps are
    untouched, no frame went out, and the state is either unchanged or
    [ABORT]. *)
Lemma heat_loop_exit n : forall w w',
  heat_loop n w = Done tt w' ->
  c w' = c w /\ (state w' = state w \/ state w' = ABORT) /\
  exists k, timeline w' = timeline w ++ replicate k (Slept (1 # 5)).
Proof.
  induction n as [|n IH]; intros w w' H; [discriminate|].
  destruct (feed w) as [|d rest] eqn:Hf.
  { rewrite heat_loop_starved in H by assumption. discriminate. }
  rewrite (heat_loop_step _ _ _ _ Hf) in H. cbv zeta in H.
  destruct (in_window _).
  { inversion H; subst. repeat split; auto. exists 0%nat. cbn. by rewrite app_nil_r. }
  destruct (Qle_bool 90 _).
  { inversion H; subst. repeat split; auto. exists 0%nat. cbn. by rewrite app_nil_r. }
  apply IH in H. cbn in H. destruct H as (Hc & Hs & k & Ht).
  repeat split; auto. exists (S k). rewrite Ht, <- app_assoc. reflexivity.
Qed.

Lemma heat_loop_reaches_window pre : forall n w d rest,
  (length pre < n)%nat ->
  feed w = pre ++ d :: rest ->
  Forall (fun s => reading "oxidizer_pressure" s < 90) pre ->
  in_window (reading "oxidizer_pressure" d) = true ->
  exists w', heat_loop n w = Done tt w' /\ state w' = state w.
Proof.
  induction pre as [|s pre IH]; intros n w d rest Hn Hf Hpre Hd;
    (destruct n as [|n]; [cbn in Hn; lia|]).
  - rewrite (heat_loop_step _ _ _ _ Hf). cbv zeta. rewrite Hd. eauto.
  - rewrite (heat_loop_step _ _ _ _ Hf). cbv zeta.
    destruct (in_window (reading _ s)); [eauto|].
    apply Forall_cons in Hpre as [Hs Hpre].
    apply Qle_bool_false in Hs. rewrite Hs.
    match goal with
    | |- exists _, heat_loop _ ?W = _ /\ _ =>
        destruct (IH n W d rest) as (w' & Hrun & Hst); auto
    end.
    + cbn in Hn. lia.
    + exists w'. split; [exact Hrun | exact Hst].
Qed.

Lemma heat_loop_reaches_overpressure pre : forall n w d rest,
  (length pre < n)%nat ->
  feed w = pre ++ d :: rest ->
  Forall (fun s => in_window (reading "oxidizer_pressure" s) = false) pre ->
  in_window (reading "oxidizer_pressure" d) = false ->
  90 <= reading "oxidizer_pressure" d ->
  exists w', heat_loop n w = Done tt w' /\ state w' = ABORT.
Proof.
  induction pre as [|s pre IH]; intros n w d rest Hn Hf Hpre Hd Hover;
    (destruct n as [|n]; [cbn in Hn; lia|]).
  - rewrite (heat_loop_step _ _ _ _ Hf). cbv zeta. rewrite Hd.
    apply Qle_bool_iff in Hover. rewrite Hover. eauto.
  - rewrite (heat_loop_step _ _ _ _ Hf). cbv zeta.
    apply Forall_cons in Hpre as [Hs Hpre]. rewrite Hs.
    destruct (Qle_bool 90 _); [eauto|].
    apply (IH n _ d rest); auto. cbn in Hn. lia.
Qed.

Lemma in_window_iff p : in_window p = true <-> 55 <= p /\ p <= 65.
Proof.
  unfold in_window. rewrite andb_true_iff, !Qle_bool_iff. reflexivity.
Qed.

Lemma in_window_false p : in_window p = false <-> ~ (55 <= p /\ p <= 65).
Proof.
  rewrite <- in_window_iff. destruct (in_window p); split; congruence.
Qed.

(** The whole phase in terms of its loop. *)
Lemma heat_oxidizer_unfold w dev :
  relay_map (c w) !! "oxidizer_heater" = Some dev ->
  heat_oxidizer w =
    let w1 := with_state HEATING w in
    let w2 := with_timeline (timeline w1 ++ [Sent (relay_frame RELAY_OPEN dev)]) w1 in
    match heat_loop (S (length (feed w))) w2 with
    | Done _ w3 =>
        match relay_map (c w3) !! "oxidizer_heater" with
        | Some dev' =>
            let w4 := with_timeline (timeline w3 ++ [Sent (relay_frame RELAY_CLOSE dev')]) w3 in
            if negb (FlightState_eqb (state w4) ABORT)
            then Done tt (with_state ARMED w4) else Done tt w4
        | None => Raised (KeyError "oxidizer_heater") w3
        end
    | Raised e w3 => Raised e w3
    | Starved w3 => Starved w3
    end.
Proof.
  intros Hdev.
  cbv [heat_oxidizer mbind M_bind set_state modify relay_open relay_close
       getitem cm_push_send polls gets].
  cbn [c with_state with_timeline feed]. rewrite Hdev. cbv zeta.
  cbn [c with_state with_timeline feed timeline].
  destruct (heat_loop _ _) as [[] w3| |]; try reflexivity.
  destruct (relay_map (c w3) !! "oxidizer_heater"); [|reflexivity].
  destruct (negb _); reflexivity.
Qed.

(** C3.  Heating.  The readings are those of "oxidizer_pressure" at the
    successive polls.  (1) If a reading lies in [55, 65] and every reading
    before it is below 90, the phase returns with state [ARMED].  (2) If a
    reading is at least 90 and no reading before it lies in [55, 65], the
    phase returns with state [ABORT] (so not [ARMED]).  (3) Whenever the
    phase returns, the state is [ARMED] or [ABORT] and the frames it sent
    are exactly the heater relay-open followed by one heater
    relay-close. *)
Theorem heat_oxidizer_exits (w : World) (dev : Z) :
  relay_map (c w) !! "oxidizer_heater" = Some dev ->
  (forall pre d rest,
      feed w = pre ++ d :: rest ->
      Forall (fun s => reading "oxidizer_pressure" s < 90) pre ->
      55 <= reading "oxidizer_pressure" d /\ reading "oxidizer_pressure" d <= 65 ->
      exists w', heat_oxidizer w = Done tt w' /\ state w' = ARMED) /\
  (forall pre d rest,
      feed w = pre ++ d :: rest ->
      Forall (fun s => ~ (55 <= reading "oxidizer_pressure" s /\
                          reading "oxidizer_pressure" s <= 65)) pre ->
      90 <= reading "oxidizer_pressure" d ->
      exists w', heat_oxidizer w = Done tt w' /\ state w' = ABORT) /\
  (forall w', heat_oxidizer w = Done tt w' ->
      (state w' = ARMED \/ state w' = ABORT) /\
      exists evs, timeline w' = timeline w ++ evs /\
        sent_frames evs =
          [relay_frame RELAY_OPEN dev; relay_frame RELAY_CLOSE dev]).
Proof.
  intros Hdev. rewrite (heat_oxidizer_unfold _ _ Hdev). cbv zeta.
  set (w2 := with_timeline _ _).
  assert (Hlen : forall pre d rest, feed w = pre ++ d :: rest ->
                   (length pre < S (length (feed w)))%nat).
  { intros pre d rest ->. rewrite length_app. lia. }
  split; [|split].
  - intros pre d rest Hf Hpre Hd.
    destruct (heat_loop_reaches_window pre (S (length (feed w))) w2 d rest)
      as (w3 & Hrun & Hst); eauto.
    { by apply in_window_iff. }
    rewrite Hrun. destruct (heat_loop_exit _ _ _ Hrun) as (Hc & _ & _).
    rewrite Hc. cbn [c w2 with_timeline with_state]. rewrite Hdev.
    cbn [state with_timeline]. rewrite Hst. cbn. eauto.
  - intros pre d rest Hf Hpre Hd.
    destruct (heat_loop_reaches_overpressure pre (S (length (feed w))) w2 d rest)
      as (w3 & Hrun & Hst); eauto.
    { eapply Forall_impl; [exact Hpre|]. intros s Hs. by apply in_window_false. }
    { apply in_window_false. intros [_ H65].
      apply (Qlt_irrefl 90), Qle_lt_trans with (reading "oxidizer_pressure" d); [exact Hd|].
      apply Qle_lt_trans with 65; [exact H65 | reflexivity]. }
    rewrite Hrun. destruct (heat_loop_exit _ _ _ Hrun) as (Hc & _ & _).
    rewrite Hc. cbn [c w2 with_timeline with_state]. rewrite Hdev.
    cbn [state with_timeline]. rewrite Hst. cbn. eauto.
  - intros w'. destruct (heat_loop _ w2) as [[] w3| |] eqn:Hrun; try discriminate.
    destruct (heat_loop_exit _ _ _ Hrun) as (Hc & Hs & k & Ht).
    rewrite Hc. cbn [c w2 with_timeline with_state]. rewrite Hdev.
    cbn [state with_timeline].
    assert (Hevs : timeline w3 ++ [Sent (relay_frame RELAY_CLOSE dev)] =
                   timeline w ++ ([Sent (relay_frame RELAY_OPEN dev)] ++
                     replicate k (Slept (1 # 5)) ++
                     [Sent (relay_frame RELAY_CLOSE dev)])).
    { rewrite Ht. cbn [timeline w2 with_timeline with_state].
      rewrite <- !app_assoc. reflexivity. }
    assert (Hsent : sent_frames ([Sent (relay_frame RELAY_OPEN dev)] ++
                     replicate k (Slept (1 # 5)) ++
                     [Sent (relay_frame RELAY_CLOSE dev)]) =
                    [relay_frame RELAY_OPEN dev; relay_frame RELAY_CLOSE dev]).
    { rewrite !sent_frames_app, sent_frames_sleeps. reflexivity. }
    destruct Hs as [Hs | Hs]; rewrite Hs; cbn; intros [= <-]; cbn;
      (split; [auto|]); eexists; (split; [exact Hevs | exact Hsent]).
Qed.

(** The two heating runs of the specification. *)
Lemma heat_oxidizer_exits_witness :
  (exists w', heat_oxidizer (controller (map pressure [10; 30; 56; 61]) []) = Done tt w' /\
              state w' = ARMED) /\
  (exists w', heat_oxidizer (controller (map pressure [10; 50; 91]) []) = Done tt w' /\
              state w' = ABORT).
Proof.
  split.
  - destruct (heat_oxidizer_exits (controller (map pressure [10; 30; 56; 61]) []) 0)
      as (Harmed & _ & _); [reflexivity|].
    apply (Harmed [pressure 10; pressure 30] (pressure 56) [pressure 61]).
    + reflexivity.
    + repeat constructor; vm_compute; reflexivity.
    + split; vm_compute; discriminate.
  - destruct (heat_oxidizer_exits (controller (map pressure [10; 50; 91]) []) 0)
      as (_ & Habort & _); [reflexivity|].
    apply (Habort [pressure 10; pressure 50] (pressure 91) []).
    + reflexivity.
    + repeat constructor; vm_compute; intros [H55 _]; apply H55; reflexivity.
    + vm_compute. discriminate.
Defined.

Example heat_oxidizer_closes_heater_once :
  timeline (world_of (heat_oxidizer (controller (map pressure [10; 30; 56; 61]) []))) =
    [Sent (relay_frame RELAY_OPEN 0); Slept (1 # 5); Slept (1 # 5);
     Sent (relay_frame RELAY_CLOSE 0)].
Proof. reflexivity. Qed.

(** ** Ignition *)

(** The two reads of the ignition checks neither look at the flight state
    nor touch the timeline or the device maps. *)
Lemma servo_is_closed_with_state s name w :
  servo_is_closed name (with_state s w) =
  on_world (with_state s) (servo_is_closed name w).
Proof.
  cbv [servo_is_closed mbind M_bind _telem get_telem dict_get getitem mret M_ret].
  cbn [feed with_state c]. destruct (feed w) as [|d rest]; [reflexivity|].
  cbn [value_of_default].
  destruct (py_float _); [|reflexivity].
  cbn [c with_feed with_state].
  destruct (servo_closed_pos (c w) !! name); reflexivity.
Qed.

Lemma servo_is_closed_frame name w :
  let w' := world_of (servo_is_closed name w) in
  c w' = c w /\ state w' = state w /\ timeline w' = timeline w.
Proof.
  cbv [servo_is_closed mbind M_bind _telem get_telem dict_get getitem mret M_ret].
  destruct (feed w) as [|d rest]; [cbn; auto|].
  cbn [value_of_default].
  destruct (py_float _); [|cbn; auto].
  cbn [c with_feed].
  destruct (servo_closed_pos (c w) !! name); cbn; auto.
Qed.

Lemma oxidizer_pressure_with_state s w :
  oxidizer_pressure (with_state s w) =
  on_world (with_state s) (oxidizer_pressure w).
Proof.
  unfold oxidizer_pressure. destruct (feed w) as [|d rest] eqn:Hf.
  - rewrite !sensor_starved by (cbn; assumption). reflexivity.
  - rewrite (sensor_read _ d rest w) by assumption.
    rewrite (sensor_read _ d rest (with_state s w)) by (cbn; assumption).
    reflexivity.
Qed.

Lemma oxidizer_pressure_frame w :
  let w' := world_of (oxidizer_pressure w) in
  c w' = c w /\ state w' = state w /\ timeline w' = timeline w.
Proof.
  unfold oxidizer_pressure. destruct (feed w) as [|d rest] eqn:Hf.
  - rewrite sensor_starved by assumption. cbn; auto.
  - rewrite (sensor_read _ d rest w) by assumption. cbn; auto.
Qed.


Lemma FlightState_eqb_neq a b : FlightState_eqb a b = false <-> a <> b.
Proof. destruct a, b; cbn; split; congruence. Qed.

Lemma ignition_sequence_guard w :
  state w = ABORT -> ignition_sequence w = Done tt w.
Proof.
  intros Hs. cbv [ignition_sequence mbind M_bind gets]. rewrite Hs. reflexivity.
Qed.

(** Past the entry guard the sequence is decided by three reads. *)
Lemma ignition_sequence_unfold w :
  state w <> ABORT ->
  ignition_sequence w =
    match servo_is_closed "fuel_intake" w with
    | Done false w1 => Done tt (with_state ABORT w1)
    | Done true w1 =>
        match servo_is_closed "oxidizer_intake" w1 with
        | Done false w2 => Done tt (with_state ABORT w2)
        | Done true w2 =>
            match oxidizer_pressure w2 with
            | Done p w3 =>
                if Qlt_bool p 40 then Done tt (with_state ABORT w3)
                else if Qlt_bool 65 p then Done tt (with_state ABORT w3)
                else (pos ← getitem servo_open_pos "fuel_main";
                      set_servo_position "fuel_main" pos;;
                      time_sleep (1 # 5);;
                      pos ← getitem servo_open_pos "oxidizer_main";
                      set_servo_position "oxidizer_main" pos;;
                      time_sleep (1 # 5);;
                      relay_open "igniter";;
                      set_state BOOST) (with_state IGNITION_SEQUENCE w3)
            | Raised e w3 => Raised e (with_state IGNITION_SEQUENCE w3)
            | Starved w3 => Starved (with_state IGNITION_SEQUENCE w3)
            end
        | Raised e w2 => Raised e (with_state IGNITION_SEQUENCE w2)
        | Starved w2 => Starved (with_state IGNITION_SEQUENCE w2)
        end
    | Raised e w1 => Raised e (with_state IGNITION_SEQUENCE w1)
    | Starved w1 => Starved (with_state IGNITION_SEQUENCE w1)
    end.
Proof.
  intros Hs%FlightState_eqb_neq.
  unfold ignition_sequence.
  cbv [mbind M_bind gets set_state modify]. rewrite Hs.
  rewrite servo_is_closed_with_state.
  destruct (servo_is_closed "fuel_intake" w) as [[] w1|e w1|w1];
    cbn [on_world negb]; try reflexivity.
  rewrite servo_is_closed_with_state.
  destruct (servo_is_closed "oxidizer_intake" w1) as [[] w2|e w2|w2];
    cbn [on_world negb mret M_ret]; try reflexivity.
  rewrite oxidizer_pressure_with_state.
  destruct (oxidizer_pressure w2) as [p w3|e w3|w3];
    cbn [on_world]; try reflexivity.
  destruct (Qlt_bool p 40); [reflexivity|].
  destruct (Qlt_bool 65 p); reflexivity.
Qed.

(** The commands of a sequence that passed its checks. *)
Lemma ignition_fire_frame w :
  let o := (pos ← getitem servo_open_pos "fuel_main";
            set_servo_position "fuel_main" pos;;
            time_sleep (1 # 5);;
            pos ← getitem servo_open_pos "oxidizer_main";
            set_servo_position "oxidizer_main" pos;;
            time_sleep (1 # 5);;
            relay_open "igniter";;
            set_state BOOST) w in
  match servo_open_pos (c w) !! "fuel_main", servo_map (c w) !! "fuel_main",
        servo_open_pos (c w) !! "oxidizer_main", servo_map (c w) !! "oxidizer_main",
        relay_map (c w) !! "igniter" with
  | Some pf, Some df, Some po, Some dox, Some di =>
      o = Done tt (with_state BOOST (with_timeline
            (timeline w ++ [Sent (servo_frame df pf); Slept (1 # 5);
                            Sent (servo_frame dox po); Slept (1 # 5);
                            Sent (relay_frame RELAY_OPEN di)]) w))
  | _, _, _, _, _ => exists e w', o = Raised e w'
  end.
Proof.
  cbv [mbind M_bind getitem set_servo_position relay_open cm_push_send
       time_sleep set_state modify].
  repeat (cbn [c with_timeline timeline with_state];
          match goal with
          | |- context [@lookup _ _ _ _ ?k ?m] => destruct (m !! k)
          end);
    cbn [c with_timeline timeline with_state]; eauto.
  f_equal. same_world. rewrite <- !app_assoc. reflexivity.
Qed.

(** C2.  When both intakes read closed and the pressure read lies in
    [40, 65] (and the two main valves and the igniter are configured
    devices), the sequence returns in state [BOOST] and what it did is
    exactly: fuel_main to its open position, a 200 ms sleep,
    oxidizer_main to its open position, a 200 ms sleep, igniter
    relay-open. *)
Theorem ignition_sequence_fires w w1 w2 w3 p pf df po dox di :
  state w <> ABORT ->
  servo_is_closed "fuel_intake" w = Done true w1 ->
  servo_is_closed "oxidizer_intake" w1 = Done true w2 ->
  oxidizer_pressure w2 = Done p w3 ->
  40 <= p -> p <= 65 ->
  servo_open_pos (c w) !! "fuel_main" = Some pf ->
  servo_map (c w) !! "fuel_main" = Some df ->
  servo_open_pos (c w) !! "oxidizer_main" = Some po ->
  servo_map (c w) !! "oxidizer_main" = Some dox ->
  relay_map (c w) !! "igniter" = Some di ->
  ignition_sequence w =
    Done tt (with_state BOOST (with_timeline
      (timeline w ++ [Sent (servo_frame df pf); Slept (1 # 5);
                      Sent (servo_frame dox po); Slept (1 # 5);
                      Sent (relay_frame RELAY_OPEN di)]) w3)).
Proof.
  intros Hs H1 H2 H3 Hlo Hhi Hpf Hdf Hpo Hdo Hdi.
  rewrite (ignition_sequence_unfold _ Hs), H1, H2, H3.
  apply Qlt_bool_false in Hlo, Hhi. rewrite Hlo, Hhi.
  pose proof (servo_is_closed_frame "fuel_intake" w) as F1.
  pose proof (servo_is_closed_frame "oxidizer_intake" w1) as F2.
  pose proof (oxidizer_pressure_frame w2) as F3.
  rewrite H1 in F1. rewrite H2 in F2. rewrite H3 in F3. cbn in F1, F2, F3.
  destruct F1 as (Hc1 & _ & Ht1), F2 as (Hc2 & _ & Ht2), F3 as (Hc3 & _ & Ht3).
  pose proof (ignition_fire_frame (with_state IGNITION_SEQUENCE w3)) as Hfire.
  cbv zeta in Hfire. cbn [c with_state timeline] in Hfire.
  rewrite Hc3, Hc2, Hc1, Hpf, Hdf, Hpo, Hdo, Hdi in Hfire.
  rewrite Hfire, Ht3, Ht2, Ht1. reflexivity.
Qed.


(** The ignition run of the specification: both intakes at their closed
    position, 50 bar. *)
Lemma ignition_sequence_fires_witness :
  ignition_sequence
    (controller [intake_positions 100 100; intake_positions 100 100; pressure 50] []) =
  Done tt (with_state BOOST (with_timeline
    [Sent (servo_frame 2 0); Slept (1 # 5); Sent (servo_frame 3 0); Slept (1 # 5);
     Sent (relay_frame RELAY_OPEN 1)] (controller [] []))).
Proof.
  apply (ignition_sequence_fires
           (controller [intake_positions 100 100; intake_positions 100 100; pressure 50] [])
           (controller [intake_positions 100 100; pressure 50] [])
           (controller [pressure 50] [])
           (controller [] []) 50 0 2 0 3 1);
    try reflexivity; vm_compute; discriminate.
Defined.


Example ignition_pressure_window_edges :
  let run p := state (world_of (ignition_sequence
    (controller [intake_positions 100 100; intake_positions 100 100; pressure p] []))) in
  run 40 = BOOST /\ run 65 = BOOST /\ run (399 # 10) = ABORT /\ run (651 # 10) = ABORT.
Proof. vm_compute. repeat split; reflexivity. Qed.

(** ** Ascent and apogee *)

Lemma arm_loop_step start n w d rest :
  feed w = d :: rest ->
  arm_loop start (S n) w =
    let w1 := with_feed rest (with_timeline (timeline w ++ [Slept (1 # 2)]) w) in
    if Qlt_bool 1 (reading "altitude" d - start) then Done tt w1
    else arm_loop start n w1.
Proof.
  intros Hf. cbn [arm_loop]. rewrite bind_unfold.
  unfold time_sleep at 1, modify at 1. rewrite bind_unfold.
  erewrite altitude_read by (cbn; exact Hf). cbv zeta.
  destruct (Qlt_bool 1 _); reflexivity.
Qed.

Lemma track_loop_step last n w d rest :
  feed w = d :: rest ->
  track_loop last (S n) w =
    let w1 := with_feed rest (with_timeline (timeline w ++ [Slept (1 # 2)]) w) in
    if Qlt_bool (reading "altitude" d) last then
      match clock w with
      | [] => Starved (with_apogee_alt last w1)
      | t :: k =>
          Done tt (with_state APOGEE
                     (with_apogee_time t (with_clock k (with_apogee_alt last w1))))
      end
    else track_loop (reading "altitude" d) n w1.
Proof.
  intros Hf. cbn [track_loop]. rewrite bind_unfold.
  unfold time_sleep at 1, modify at 1. rewrite bind_unfold.
  erewrite altitude_read by (cbn; exact Hf). cbv zeta.
  destruct (Qlt_bool _ last); [|reflexivity].
  cbv [mbind M_bind modify time_time set_state].
  cbn [clock with_apogee_alt with_feed with_timeline].
  destruct (clock w); reflexivity.
Qed.



Lemma climb_and_detect_apogee_guard w :
  state w = ABORT -> climb_and_detect_apogee w = Done tt w.
Proof.
  intros Hs. cbv [climb_and_detect_apogee mbind M_bind gets]. rewrite Hs. reflexivity.
Qed.



(** ** Descent and parachute *)

Lemma descent_and_chute_guard w :
  state w = ABORT -> descent_and_chute w = Done tt w.
Proof.
  intros Hs. cbv [descent_and_chute mbind M_bind gets]. rewrite Hs. reflexivity.
Qed.








(** The normal run of the specification: 20 m/s at 150 m, inside the 9 s
    window. *)
Example deploy_when_slow_and_low :
  world_of ((polls ≫= deploy_loop)
    (descending (map altitude_at [160; 150; 150]) [1003; 2007 # 2; 2007 # 2])) =
  with_state CHUTE_DEPLOYED
    (with_timeline [Slept (1 # 2); Sent (relay_frame RELAY_OPEN 2)]
       (descending [] [])).
Proof. reflexivity. Qed.

(** A recorded apogee below 5 m: landed at once, nothing sent. *)
Example descent_low_apogee :
  descent_and_chute (with_state APOGEE (with_apogee_alt 3 (controller [] []))) =
  Done tt (with_landed true (with_state LANDED (with_apogee_alt 3 (controller [] [])))).
Proof. reflexivity. Qed.

(** ** The iteration bound of the polling loops

    Every iteration of a polling loop reads telemetry at least once, so a
    loop given more iterations than there are reads left behaves as the
    unbounded [while] loop of the source: one more iteration changes
    nothing.  [polls] hands every loop such a bound. *)

Lemma fill_loop_step key n w d rest :
  feed w = d :: rest ->
  fill_loop (_telem key (Some 0) ≫= as_float) (S n) w =
    let w1 := with_feed rest w in
    if Qlt_bool (reading key d) 100
    then fill_loop (_telem key (Some 0) ≫= as_float) n
           (with_timeline (timeline w1 ++ [Slept (1 # 5)]) w1)
    else Done tt w1.
Proof.
  intros Hf. cbn [fill_loop]. rewrite bind_unfold, (sensor_read _ _ _ _ Hf).
  cbv zeta. destruct (Qlt_bool _ 100); reflexivity.
Qed.

Lemma fill_loop_starved key n w :
  feed w = [] -> fill_loop (_telem key (Some 0) ≫= as_float) n w = Starved w.
Proof.
  intros Hf. destruct n as [|n]; [reflexivity|].
  cbn [fill_loop]. rewrite bind_unfold, sensor_starved by assumption.
  reflexivity.
Qed.

Lemma fill_loop_bound key n : forall w,
  (length (feed w) < n)%nat ->
  fill_loop (_telem key (Some 0) ≫= as_float) n w =
  fill_loop (_telem key (Some 0) ≫= as_float) (S n) w.
Proof.
  induction n as [|n IH]; intros w Hlen; [lia|].
  destruct (feed w) as [|d rest] eqn:Hf.
  - by rewrite !fill_loop_starved.
  - rewrite (fill_loop_step key n w d rest Hf).
    rewrite (fill_loop_step key (S n) w d rest Hf). cbv zeta.
    destruct (Qlt_bool _ 100); [|reflexivity].
    apply IH. fields. cbn [length] in Hlen. lia.
Qed.

Lemma heat_loop_bound n : forall w,
  (length (feed w) < n)%nat -> heat_loop n w = heat_loop (S n) w.
Proof.
  induction n as [|n IH]; intros w Hlen; [lia|].
  destruct (feed w) as [|d rest] eqn:Hf.
  - by rewrite !heat_loop_starved.
  - rewrite (heat_loop_step n w d rest Hf), (heat_loop_step (S n) w d rest Hf).
    cbv zeta. destruct (in_window _); [reflexivity|].
    destruct (Qle_bool 90 _); [reflexivity|].
    apply IH. fields. cbn [length] in Hlen. lia.
Qed.

Lemma arm_loop_starved start n w :
  feed w = [] ->
  arm_loop start (S n) w =
    Starved (with_timeline (timeline w ++ [Slept (1 # 2)]) w).
Proof.
  intros Hf. cbn [arm_loop]. rewrite bind_unfold. unfold time_sleep at 1, modify at 1.
  rewrite bind_unfold, altitude_starved by exact Hf. reflexivity.
Qed.

Lemma track_loop_starved last n w :
  feed w = [] ->
  track_loop last (S n) w =
    Starved (with_timeline (timeline w ++ [Slept (1 # 2)]) w).
Proof.
  intros Hf. cbn [track_loop]. rewrite bind_unfold. unfold time_sleep at 1, modify at 1.
  rewrite bind_unfold, altitude_starved by exact Hf. reflexivity.
Qed.

Lemma arm_loop_bound start n : forall w,
  (length (feed w) < n)%nat -> arm_loop start n w = arm_loop start (S n) w.
Proof.
  induction n as [|n IH]; intros w Hlen; [lia|].
  destruct (feed w) as [|d rest] eqn:Hf.
  - by rewrite !arm_loop_starved.
  - rewrite (arm_loop_step start n w d rest Hf).
    rewrite (arm_loop_step start (S n) w d rest Hf). cbv zeta.
    destruct (Qlt_bool 1 _); [reflexivity|].
    apply IH. fields. cbn [length] in Hlen. lia.
Qed.

Lemma track_loop_bound n : forall last w,
  (length (feed w) < n)%nat -> track_loop last n w = track_loop last (S n) w.
Proof.
  induction n as [|n IH]; intros last w Hlen; [lia|].
  destruct (feed w) as [|d rest] eqn:Hf.
  - by rewrite !track_loop_starved.
  - rewrite (track_loop_step last n w d rest Hf).
    rewrite (track_loop_step last (S n) w d rest Hf). cbv zeta.
    destruct (Qlt_bool _ last); [reflexivity|].
    apply IH. fields. cbn [length] in Hlen. lia.
Qed.

Lemma altitude_consumes w a w1 :
  altitude w = Done a w1 -> (length (feed w1) < length (feed w))%nat.
Proof.
  destruct (feed w) as [|d rest] eqn:Hf.
  - rewrite altitude_starved by exact Hf. discriminate.
  - rewrite (altitude_read d rest w Hf). intros [= _ <-]. fields.
    cbn [length]. lia.
Qed.

Lemma vertical_speed_consumes dt w v w1 :
  vertical_speed dt w = Done v w1 -> (length (feed w1) < length (feed w))%nat.
Proof.
  rewrite vertical_speed_unfold.
  destruct (feed w) as [|d1 [|d2 f2]]; destruct (clock w) as [|t1 [|t2 k2]];
    try discriminate.
  cbv zeta. intros [= _ <-]. fields. cbn [length]. lia.
Qed.

Lemma time_time_feed w t w1 : time_time w = Done t w1 -> feed w1 = feed w.
Proof.
  unfold time_time. destruct (clock w); [discriminate|]. by intros [= _ <-].
Qed.

Lemma py_or_time_feed x w t w1 :
  py_or x time_time w = Done t w1 -> feed w1 = feed w.
Proof.
  unfold py_or. destruct x as [q|]; [destruct (Qeq_bool q 0)|];
    try apply time_time_feed.
  by intros [= _ <-].
Qed.

Lemma deploy_loop_unfold n w :
  deploy_loop (S n) w =
    (v ← vertical_speed (1 # 2);
     alt_now ← altitude;
     now ← time_time;
     at_apogee ← gets apogee_time;
     ref ← py_or at_apogee time_time;
     if deploy_condition (Qabs v) alt_now (now - ref) then
       relay_open "parachute";; set_state CHUTE_DEPLOYED
     else time_sleep (1 # 2);; deploy_loop n) w.
Proof. reflexivity. Qed.

Lemma deploy_loop_bound n : forall w,
  (length (feed w) < n)%nat -> deploy_loop n w = deploy_loop (S n) w.
Proof.
  induction n as [|n IH]; intros w Hlen; [lia|].
  rewrite (deploy_loop_unfold n), (deploy_loop_unfold (S n)), !bind_unfold.
  destruct (vertical_speed (1 # 2) w) as [v w1| |] eqn:H1; try reflexivity.
  apply vertical_speed_consumes in H1. rewrite !bind_unfold.
  destruct (altitude w1) as [alt_now w2| |] eqn:H2; try reflexivity.
  apply altitude_consumes in H2. rewrite !bind_unfold.
  destruct (time_time w2) as [now w3| |] eqn:H3; try reflexivity.
  apply time_time_feed in H3. rewrite !bind_unfold. unfold gets.
  rewrite !bind_unfold.
  destruct (py_or (apogee_time w3) time_time w3) as [ref w4| |] eqn:H4;
    try reflexivity.
  apply py_or_time_feed in H4.
  destruct (deploy_condition _ _ _); [reflexivity|].
  rewrite !bind_unfold. unfold time_sleep, modify. apply IH. fields.
  rewrite H4, H3. lia.
Qed.

Lemma landing_loop_unfold n w :
  landing_loop (S n) w =
    (alt1 ← altitude;
     time_sleep 1;;
     alt2 ← altitude;
     if Qlt_bool (Qabs (alt2 - alt1)) (1 # 2) then
       set_state LANDED;; modify (with_landed true)
     else landing_loop n) w.
Proof. reflexivity. Qed.

Lemma landing_loop_bound n : forall w,
  (length (feed w) < n)%nat -> landing_loop n w = landing_loop (S n) w.
Proof.
  induction n as [|n IH]; intros w Hlen; [lia|].
  rewrite (landing_loop_unfold n), (landing_loop_unfold (S n)), !bind_unfold.
  destruct (altitude w) as [alt1 w1| |] eqn:H1; try reflexivity.
  apply altitude_consumes in H1. rewrite !bind_unfold.
  unfold time_sleep, modify. rewrite !bind_unfold.
  destruct (altitude _) as [alt2 w2| |] eqn:H2; try reflexivity.
  apply altitude_consumes in H2. cbn [feed with_timeline] in H2.
  destruct (Qlt_bool _ _); [reflexivity|].
  apply IH. lia.
Qed.

(** Landing, as in the specification: two reads 0.3 m apart. *)
Example landing_detected :
  let o := (polls ≫= landing_loop)
             (with_state CHUTE_DEPLOYED
                (controller (map altitude_at [602 # 5; 1201 # 10]) [])) in
  state (world_of o) = LANDED /\ landed (world_of o) = true /\
  timeline (world_of o) = [Slept 1].
Proof. repeat split; reflexivity. Qed.

(** ** ABORT at phase entry *)

(** The three flight phases return at once, leaving the world as it is. *)
Lemma guarded_phases_absorb_abort w :
  state w = ABORT ->
  ignition_sequence w = Done tt w /\
  climb_and_detect_apogee w = Done tt w /\
  descent_and_chute w = Done tt w.
Proof.
  intros Hs. split; [|split].
  - by apply ignition_sequence_guard.
  - by apply climb_and_detect_apogee_guard.
  - by apply descent_and_chute_guard.
Qed.

(** C1 fails on the three ground phases, which have no entry guard.
    Entered in state [ABORT] with a full tank in view, [tank_oxidizer]
    opens and closes the oxidizer intake and leaves [OX_READY];
    [tank_fuel] does the same with the fuel intake and leaves
    [FUEL_READY]; [heat_oxidizer], with 60 bar in view, switches the
    heater on and off and leaves [ARMED]. *)
Theorem ground_phases_override_abort :
  tank_oxidizer
    (with_state ABORT (controller [level "oxidizer_level" 100; pressure 50] [])) =
    Done tt (with_state OX_READY
               (with_timeline [Sent (servo_frame 1 0); Sent (servo_frame 1 100)]
                  (controller [] []))) /\
  tank_fuel (with_state ABORT (controller [level "fuel_level" 100] [])) =
    Done tt (with_state FUEL_READY
               (with_timeline [Sent (servo_frame 0 0); Sent (servo_frame 0 100)]
                  (controller [] []))) /\
  heat_oxidizer (with_state ABORT (controller [pressure 60] [])) =
    Done tt (with_state ARMED
               (with_timeline [Sent (relay_frame RELAY_OPEN 0);
                               Sent (relay_frame RELAY_CLOSE 0)]
                  (controller [] []))).
Proof. repeat split; reflexivity. Qed.

(** ** A whole mission *)

Example full_auto_mission_lands :
  let seen h := telemetry 100 100 60 h 100 100 in
  let o := full_auto_mission
    (controller
       (map seen [0; 0; 0; 0; 0; 0; 0;          (* tanking, heating, ignition *)
                  0; 2; 5; 9; 8;                 (* ascent *)
                  8; 0; 0;                       (* deploy poll *)
                  0; 0])                         (* landing *)
       [1000; 1001; 1002; 1002]) in
  state (world_of o) = LANDED /\ landed (world_of o) = true /\
  apogee_alt (world_of o) = Some 9 /\
  sent_frames (timeline (world_of o)) =
    [servo_frame 1 0; servo_frame 1 100; servo_frame 0 0; servo_frame 0 100;
     relay_frame RELAY_OPEN 0; relay_frame RELAY_CLOSE 0;
     servo_frame 2 0; servo_frame 3 0; relay_frame RELAY_OPEN 1;
     relay_frame RELAY_OPEN 2].
Proof. vm_compute. repeat split; reflexivity. Qed.

(** * Further properties *)

Tactic Notation "fields" "in" ne_hyp_list(Hs) :=
  cbn [c state apogee_alt apogee_time landed timeline feed clock
       with_state with_apogee_alt with_apogee_time with_landed
       with_timeline with_feed with_clock] in Hs.

(** ** Reads and sleeps are quiet *)

Lemma quiet_refl w : quiet w w [].
Proof. unfold quiet. rewrite app_nil_r. auto 10. Qed.

Lemma quiet_trans w1 w2 w3 evs1 evs2 :
  quiet w1 w2 evs1 -> quiet w2 w3 evs2 -> quiet w1 w3 (evs1 ++ evs2).
Proof.
  intros (Hc1 & Hs1 & Ha1 & Ht1 & Hl1 & He1) (Hc2 & Hs2 & Ha2 & Ht2 & Hl2 & He2).
  unfold quiet. rewrite app_assoc, <- He1, <- He2. repeat split; congruence.
Qed.

Lemma quiet_sent_since w w' evs :
  quiet w w' evs -> sent_since w w' (sent_frames evs).
Proof. intros (Hc & _ & _ & _ & _ & He). split; [exact Hc|]. eauto. Qed.

Lemma sent_since_refl w : sent_since w w [].
Proof. split; [reflexivity|]. exists []. by rewrite app_nil_r. Qed.

Lemma sent_since_trans w1 w2 w3 f1 f2 :
  sent_since w1 w2 f1 -> sent_since w2 w3 f2 -> sent_since w1 w3 (f1 ++ f2).
Proof.
  intros (Hc1 & evs1 & He1 & Hf1) (Hc2 & evs2 & He2 & Hf2).
  split; [congruence|]. exists (evs1 ++ evs2).
  rewrite sent_frames_app, Hf1, Hf2, app_assoc, <- He1, <- He2. auto.
Qed.

Lemma sleeps_sent dt evs : sleeps dt evs -> sent_frames evs = [].
Proof. intros [k ->]. apply sent_frames_sleeps. Qed.

Lemma sleeps_nil dt : sleeps dt [].
Proof. by exists 0%nat. Qed.

Lemma sleeps_cons dt evs : sleeps dt evs -> sleeps dt (Slept dt :: evs).
Proof. intros [k ->]. by exists (S k). Qed.

Lemma sleeps_app dt evs1 evs2 :
  sleeps dt evs1 -> sleeps dt evs2 -> sleeps dt (evs1 ++ evs2).
Proof. intros [k1 ->] [k2 ->]. exists (k1 + k2)%nat. by rewrite replicate_add. Qed.

(** A sensor read, whatever its outcome, is quiet and never raises. *)
Lemma sensor_quiet key w :
  let o := (_telem key (Some 0) ≫= as_float) w in
  quiet w (world_of o) [] /\ forall e w', o <> Raised e w'.
Proof.
  destruct (feed w) as [|d rest] eqn:Hf.
  - rewrite (sensor_starved key w Hf). split; [apply quiet_refl | discriminate].
  - rewrite (sensor_read key d rest w Hf). split; [|discriminate].
    unfold quiet. fields. rewrite app_nil_r. auto 10.
Qed.

Lemma time_time_quiet w : quiet w (world_of (time_time w)) [].
Proof.
  unfold time_time. destruct (clock w); [apply quiet_refl|].
  unfold quiet. fields. rewrite app_nil_r. auto 10.
Qed.

Lemma vertical_speed_quiet dt w :
  let o := vertical_speed dt w in
  (quiet w (world_of o) [] \/ quiet w (world_of o) [Slept dt]) /\
  forall v w', o = Done v w' -> quiet w w' [Slept dt].
Proof.
  rewrite vertical_speed_unfold.
  destruct (feed w) as [|d1 [|d2 f2]]; destruct (clock w) as [|t1 [|t2 k2]];
    cbv zeta; (split; [|try discriminate]);
    try (left; unfold quiet; fields; rewrite app_nil_r; auto 10; fail);
    try (right; unfold quiet; fields; auto 10; fail).
  intros v w' [= _ <-]. unfold quiet. fields. auto 10.
Qed.

Lemma altitude_done w a w1 : altitude w = Done a w1 -> quiet w w1 [].
Proof.
  intros H. destruct (sensor_quiet "altitude" w) as [Hq _].
  fold altitude in Hq. by rewrite H in Hq.
Qed.

Lemma time_time_done w t w1 : time_time w = Done t w1 -> quiet w w1 [].
Proof. intros H. pose proof (time_time_quiet w) as Hq. by rewrite H in Hq. Qed.

Lemma py_or_time_done x w t w1 :
  py_or x time_time w = Done t w1 -> quiet w w1 [].
Proof.
  unfold py_or. destruct x as [q|]; [destruct (Qeq_bool q 0)|];
    try apply time_time_done.
  intros [= _ <-]. apply quiet_refl.
Qed.

Lemma vertical_speed_done dt w v w1 :
  vertical_speed dt w = Done v w1 -> quiet w w1 [Slept dt].
Proof. apply vertical_speed_quiet. Qed.

Lemma quiet_sleep dt w :
  quiet w (with_timeline (timeline w ++ [Slept dt]) w) [Slept dt].
Proof. unfold quiet. fields. auto 10. Qed.

Lemma altitude_never_raises w e w' : altitude w <> Raised e w'.
Proof. apply (sensor_quiet "altitude" w). Qed.

(** ** Silent computations *)

Lemma silent_sensor key : silent (_telem key (Some 0) ≫= as_float).
Proof.
  intros w. destruct (sensor_quiet key w) as [Hq Hne]. split; [|exact Hne].
  exists []. auto.
Qed.

Lemma silent_altitude : silent altitude.
Proof. apply silent_sensor. Qed.

Lemma silent_time_time : silent time_time.
Proof.
  intros w. split.
  - exists []. split; [reflexivity | apply time_time_quiet].
  - unfold time_time. destruct (clock w); discriminate.
Qed.

Lemma silent_ret {A} (a : A) : silent (mret a).
Proof.
  intros w. split; [|discriminate]. exists []. split; [reflexivity | apply quiet_refl].
Qed.

Lemma silent_gets {A} (f : World -> A) : silent (gets f).
Proof.
  intros w. split; [|discriminate]. exists []. split; [reflexivity | apply quiet_refl].
Qed.

Lemma silent_sleep dt : silent (time_sleep dt).
Proof.
  intros w. split; [|discriminate]. exists [Slept dt].
  split; [reflexivity | apply quiet_sleep].
Qed.

Lemma silent_py_or x : silent (py_or x time_time).
Proof.
  unfold py_or. destruct x as [q|]; [destruct (Qeq_bool q 0)|];
    auto using silent_time_time, silent_ret.
Qed.

Lemma silent_vertical_speed dt : silent (vertical_speed dt).
Proof.
  intros w. destruct (vertical_speed_quiet dt w) as [[Hq | Hq] _]; split;
    try (rewrite vertical_speed_unfold;
         destruct (feed w) as [|d1 [|d2 f2]]; destruct (clock w) as [|t1 [|t2 k2]];
         discriminate).
  - exists []. auto.
  - exists [Slept dt]. auto.
Qed.

(** A property of outcomes that survives a quiet prefix holds of
    [m ≫= k] as soon as [m] is silent and it holds of every [k a]. *)
Lemma bind_silent {A B} (P : World -> outcome B -> Prop)
    (m : M A) (k : A -> M B) :
  (forall w w1 evs o,
     quiet w w1 evs -> sent_frames evs = [] -> P w1 o -> P w o) ->
  (forall w, P w (Starved w)) ->
  silent m ->
  (forall a w1, P w1 (k a w1)) ->
  forall w, P w ((m ≫= k) w).
Proof.
  intros Hpre Hstarved Hm Hk w. rewrite bind_unfold.
  destruct (Hm w) as ((evs & Hsent & Hq) & Hne).
  destruct (m w) as [a w1|e w1|w1]; cbn [world_of] in Hq.
  - eapply Hpre; eauto.
  - exfalso. by eapply Hne.
  - eapply Hpre; eauto.
Qed.

Lemma sent_since_quiet w w1 w2 evs frames :
  quiet w w1 evs -> sent_frames evs = [] ->
  sent_since w1 w2 frames -> sent_since w w2 frames.
Proof.
  intros Hq Hsent Hs.
  change frames with ([] ++ frames). rewrite <- Hsent.
  eapply sent_since_trans; [by apply quiet_sent_since | exact Hs].
Qed.

(** ** Oxidizer and fuel loading *)

Lemma fill_loop_quiet key n : forall w,
  let o := fill_loop (_telem key (Some 0) ≫= as_float) n w in
  (exists evs, sleeps (1 # 5) evs /\ quiet w (world_of o) evs) /\
  forall e w', o <> Raised e w'.
Proof.
  induction n as [|n IH]; intros w.
  { split; [|discriminate]. exists []. split; [apply sleeps_nil | apply quiet_refl]. }
  destruct (feed w) as [|d rest] eqn:Hf.
  { rewrite fill_loop_starved by exact Hf. split; [|discriminate].
    exists []. split; [apply sleeps_nil | apply quiet_refl]. }
  rewrite (fill_loop_step key n w d rest Hf). cbv zeta.
  destruct (Qlt_bool _ 100).
  - match goal with
    | |- context [fill_loop _ n ?W] => destruct (IH W) as ((evs & Hsl & Hq) & Hne)
    end.
    split; [|exact Hne]. exists (Slept (1 # 5) :: evs).
    split; [by apply sleeps_cons|].
    change (Slept (1 # 5) :: evs) with ([Slept (1 # 5)] ++ evs).
    eapply quiet_trans; [|exact Hq].
    unfold quiet. fields. auto 10.
  - split; [|discriminate]. exists []. split; [apply sleeps_nil|].
    unfold quiet. fields. rewrite app_nil_r. auto 10.
Qed.

Lemma fill_loop_reaches key pre : forall n w d rest,
  (length pre < n)%nat ->
  feed w = pre ++ d :: rest ->
  Forall (fun s => reading key s < 100) pre ->
  100 <= reading key d ->
  fill_loop (_telem key (Some 0) ≫= as_float) n w =
    Done tt (with_feed rest
               (with_timeline
                  (timeline w ++ replicate (length pre) (Slept (1 # 5))) w)).
Proof.
  induction pre as [|s pre IH]; intros n w d rest Hn Hf Hpre Hd;
    (destruct n as [|n]; [cbn in Hn; lia|]);
    rewrite (fill_loop_step key n w _ _ Hf); cbv zeta.
  - apply Qlt_bool_false in Hd. rewrite Hd. f_equal. same_world.
    cbn [replicate length]. by rewrite app_nil_r.
  - apply Forall_cons in Hpre as [Hs Hpre].
    apply Qlt_bool_iff in Hs. rewrite Hs.
    rewrite (IH n _ d rest); auto; [|cbn in Hn; lia].
    f_equal. same_world. rewrite <- app_assoc. reflexivity.
Qed.

Lemma tank_oxidizer_unfold w :
  tank_oxidizer w =
    let w1 := with_state TANKING_OX w in
    match servo_open_pos (c w) !! "oxidizer_intake",
          servo_map (c w) !! "oxidizer_intake" with
    | Some po, Some dev =>
        let w2 := with_timeline (timeline w ++ [Sent (servo_frame dev po)]) w1 in
        match fill_loop oxidizer_level (S (length (feed w))) w2 with
        | Done _ w3 =>
            match servo_closed_pos (c w3) !! "oxidizer_intake",
                  servo_map (c w3) !! "oxidizer_intake" with
            | Some pc, Some dev' =>
                let w4 := with_timeline
                            (timeline w3 ++ [Sent (servo_frame dev' pc)]) w3 in
                match oxidizer_pressure w4 with
                | Done _ w5 => Done tt (with_state OX_READY w5)
                | Raised e w5 => Raised e w5
                | Starved w5 => Starved w5
                end
            | _, _ => Raised (KeyError "oxidizer_intake") w3
            end
        | Raised e w3 => Raised e w3
        | Starved w3 => Starved w3
        end
    | _, _ => Raised (KeyError "oxidizer_intake") w1
    end.
Proof.
  cbv [tank_oxidizer mbind M_bind set_state modify getitem set_servo_position
       cm_push_send polls gets].
  fields.
  destruct (servo_open_pos (c w) !! "oxidizer_intake"); [|reflexivity].
  fields. destruct (servo_map (c w) !! "oxidizer_intake"); [|reflexivity].
  fields. unfold servo_frame.
  destruct (fill_loop _ _ _) as [[] w3| |]; try reflexivity.
  destruct (servo_closed_pos (c w3) !! "oxidizer_intake");
    [|destruct (servo_map (c w3) !! "oxidizer_intake"); reflexivity].
  destruct (servo_map (c w3) !! "oxidizer_intake"); [|reflexivity].
  destruct (oxidizer_pressure _) as [? w5| |]; reflexivity.
Qed.

Lemma tank_fuel_unfold w :
  tank_fuel w =
    let w1 := with_state TANKING_FUEL w in
    match servo_open_pos (c w) !! "fuel_intake",
          servo_map (c w) !! "fuel_intake" with
    | Some po, Some dev =>
        let w2 := with_timeline (timeline w ++ [Sent (servo_frame dev po)]) w1 in
        match fill_loop fuel_level (S (length (feed w))) w2 with
        | Done _ w3 =>
            match servo_closed_pos (c w3) !! "fuel_intake",
                  servo_map (c w3) !! "fuel_intake" with
            | Some pc, Some dev' =>
                Done tt (with_state FUEL_READY
                           (with_timeline
                              (timeline w3 ++ [Sent (servo_frame dev' pc)]) w3))
            | _, _ => Raised (KeyError "fuel_intake") w3
            end
        | Raised e w3 => Raised e w3
        | Starved w3 => Starved w3
        end
    | _, _ => Raised (KeyError "fuel_intake") w1
    end.
Proof.
  cbv [tank_fuel mbind M_bind set_state modify getitem set_servo_position
       cm_push_send polls gets].
  fields.
  destruct (servo_open_pos (c w) !! "fuel_intake"); [|reflexivity].
  fields. destruct (servo_map (c w) !! "fuel_intake"); [|reflexivity].
  fields. unfold servo_frame.
  destruct (fill_loop _ _ _) as [[] w3| |]; try reflexivity.
  destruct (servo_closed_pos (c w3) !! "fuel_intake");
    [|destruct (servo_map (c w3) !! "fuel_intake"); reflexivity].
  destruct (servo_map (c w3) !! "fuel_intake"); reflexivity.
Qed.

Lemma tank_oxidizer_outcome w :
  let o := tank_oxidizer w in
  (state (world_of o) = TANKING_OX \/ state (world_of o) = OX_READY) /\
  landed (world_of o) = landed w /\
  (forall e w', o = Raised e w' -> e = KeyError "oxidizer_intake") /\
  (forall w', o = Done tt w' ->
     state w' = OX_READY /\
     exists open close,
       servo_command (c w) "oxidizer_intake" servo_open_pos = Some open /\
       servo_command (c w) "oxidizer_intake" servo_closed_pos = Some close /\
       sent_since w w' [open; close]).
Proof.
  rewrite tank_oxidizer_unfold. cbv zeta. unfold servo_command.
  destruct (servo_open_pos (c w) !! "oxidizer_intake") as [po|];
    [|cbn; repeat split; auto; intros; congruence].
  destruct (servo_map (c w) !! "oxidizer_intake") as [dev|] eqn:Hdev;
    [|cbn; repeat split; auto; intros; congruence].
  unfold oxidizer_level.
  match goal with
  | |- context [fill_loop _ ?n ?W] =>
      destruct (fill_loop_quiet "oxidizer_level" n W) as ((evs & Hsl & Hq) & Hne)
  end.
  destruct (fill_loop _ _ _) as [[] w3|e3 w3|w3];
    [|exfalso; by eapply Hne|];
    cbn [world_of] in Hq; destruct Hq as (Hc & Hs & _ & _ & Hl & He);
    fields in Hc Hs Hl He;
    [|cbn [world_of]; rewrite Hs, Hl; repeat split; auto; intros; congruence].
  rewrite Hc, Hdev.
  destruct (servo_closed_pos (c w) !! "oxidizer_intake") as [pc|];
    [|cbn [world_of]; rewrite Hs, Hl; repeat split; auto; intros; congruence].
  match goal with
  | |- context [oxidizer_pressure ?W] =>
      destruct (sensor_quiet "oxidizer_pressure" W) as (Hq5 & Hne5)
  end.
  fold oxidizer_pressure in Hq5, Hne5.
  destruct (oxidizer_pressure _) as [p w5|e5 w5|w5];
    [|exfalso; by eapply Hne5|];
    cbn [world_of] in Hq5; destruct Hq5 as (Hc5 & Hs5 & _ & _ & Hl5 & He5);
    fields in Hc5 Hs5 Hl5 He5; cbn [world_of]; fields;
    [|rewrite Hs5, Hs, Hl5, Hl; repeat split; auto; intros; congruence].
  split; [auto|]. split; [congruence|]. split; [discriminate|].
  intros w' [= <-]. split; [reflexivity|].
  exists (servo_frame dev po), (servo_frame dev pc).
  split; [reflexivity|]. split; [reflexivity|].
  split; [fields; congruence|].
  exists ([Sent (servo_frame dev po)] ++ evs ++ [Sent (servo_frame dev pc)]).
  fields. rewrite He5, app_nil_r, He, <- !app_assoc.
  split; [reflexivity|].
  rewrite !sent_frames_app, (sleeps_sent _ _ Hsl). reflexivity.
Qed.

Lemma tank_fuel_outcome w :
  let o := tank_fuel w in
  (state (world_of o) = TANKING_FUEL \/ state (world_of o) = FUEL_READY) /\
  landed (world_of o) = landed w /\
  (forall e w', o = Raised e w' -> e = KeyError "fuel_intake") /\
  (forall w', o = Done tt w' ->
     state w' = FUEL_READY /\
     exists open close,
       servo_command (c w) "fuel_intake" servo_open_pos = Some open /\
       servo_command (c w) "fuel_intake" servo_closed_pos = Some close /\
       sent_since w w' [open; close]).
Proof.
  rewrite tank_fuel_unfold. cbv zeta. unfold servo_command.
  destruct (servo_open_pos (c w) !! "fuel_intake") as [po|];
    [|cbn; repeat split; auto; intros; congruence].
  destruct (servo_map (c w) !! "fuel_intake") as [dev|] eqn:Hdev;
    [|cbn; repeat split; auto; intros; congruence].
  unfold fuel_level.
  match goal with
  | |- context [fill_loop _ ?n ?W] =>
      destruct (fill_loop_quiet "fuel_level" n W) as ((evs & Hsl & Hq) & Hne)
  end.
  destruct (fill_loop _ _ _) as [[] w3|e3 w3|w3];
    [|exfalso; by eapply Hne|];
    cbn [world_of] in Hq; destruct Hq as (Hc & Hs & _ & _ & Hl & He);
    fields in Hc Hs Hl He;
    [|cbn [world_of]; rewrite Hs, Hl; repeat split; auto; intros; congruence].
  rewrite Hc, Hdev.
  destruct (servo_closed_pos (c w) !! "fuel_intake") as [pc|];
    [|cbn [world_of]; rewrite Hs, Hl; repeat split; auto; intros; congruence].
  cbn [world_of]; fields.
  split; [auto|]. split; [congruence|]. split; [discriminate|].
  intros w' [= <-]. split; [reflexivity|].
  exists (servo_frame dev po), (servo_frame dev pc).
  split; [reflexivity|]. split; [reflexivity|].
  split; [fields; congruence|].
  exists ([Sent (servo_frame dev po)] ++ evs ++ [Sent (servo_frame dev pc)]).
  fields. rewrite He, <- !app_assoc.
  split; [reflexivity|].
  rewrite !sent_frames_app, (sleeps_sent _ _ Hsl). reflexivity.
Qed.

(** X1.  Oxidizer loading.  With the oxidizer intake configured, level
    reads [pre] below 100, then a read [d] of at least 100, then the
    pressure read of the log line: the phase returns in [OX_READY], and
    what it did is: intake to its open position, one 200 ms sleep per read
    below 100, intake to its closed position. *)
Theorem tank_oxidizer_fills w po pc dev pre d p rest :
  servo_open_pos (c w) !! "oxidizer_intake" = Some po ->
  servo_closed_pos (c w) !! "oxidizer_intake" = Some pc ->
  servo_map (c w) !! "oxidizer_intake" = Some dev ->
  feed w = pre ++ d :: p :: rest ->
  Forall (fun s => reading "oxidizer_level" s < 100) pre ->
  100 <= reading "oxidizer_level" d ->
  tank_oxidizer w =
    Done tt (with_state OX_READY (with_feed rest (with_timeline
      (timeline w ++ Sent (servo_frame dev po) ::
         replicate (length pre) (Slept (1 # 5)) ++ [Sent (servo_frame dev pc)])
      w))).
Proof.
  intros Hpo Hpc Hdev Hf Hpre Hd.
  rewrite tank_oxidizer_unfold. cbv zeta. rewrite Hpo, Hdev.
  unfold oxidizer_level.
  rewrite (fill_loop_reaches "oxidizer_level" pre _ _ d (p :: rest));
    [|rewrite Hf, length_app; lia|exact Hf|exact Hpre|exact Hd].
  fields. rewrite Hpc, Hdev. unfold oxidizer_pressure.
  erewrite sensor_read by reflexivity.
  f_equal. same_world. rewrite <- !app_assoc. reflexivity.
Qed.

Lemma tank_oxidizer_fills_witness :
  tank_oxidizer
    (controller (map (level "oxidizer_level") [40; 80; 100] ++ [pressure 12]) []) =
  Done tt (with_state OX_READY (with_timeline
    [Sent (servo_frame 1 0); Slept (1 # 5); Slept (1 # 5); Sent (servo_frame 1 100)]
    (controller [] []))).
Proof.
  apply (tank_oxidizer_fills
           (controller (map (level "oxidizer_level") [40; 80; 100] ++ [pressure 12]) [])
           0 100 1
           [level "oxidizer_level" 40; level "oxidizer_level" 80]
           (level "oxidizer_level" 100) (pressure 12) []);
    try reflexivity.
  - repeat constructor; vm_compute; reflexivity.
  - vm_compute. discriminate.
Defined.

(** X2.  Fuel loading: the same on the fuel intake and the fuel level,
    without the pressure read; the phase returns in [FUEL_READY]. *)
Theorem tank_fuel_fills w po pc dev pre d rest :
  servo_open_pos (c w) !! "fuel_intake" = Some po ->
  servo_closed_pos (c w) !! "fuel_intake" = Some pc ->
  servo_map (c w) !! "fuel_intake" = Some dev ->
  feed w = pre ++ d :: rest ->
  Forall (fun s => reading "fuel_level" s < 100) pre ->
  100 <= reading "fuel_level" d ->
  tank_fuel w =
    Done tt (with_state FUEL_READY (with_feed rest (with_timeline
      (timeline w ++ Sent (servo_frame dev po) ::
         replicate (length pre) (Slept (1 # 5)) ++ [Sent (servo_frame dev pc)])
      w))).
Proof.
  intros Hpo Hpc Hdev Hf Hpre Hd.
  rewrite tank_fuel_unfold. cbv zeta. rewrite Hpo, Hdev.
  unfold fuel_level.
  rewrite (fill_loop_reaches "fuel_level" pre _ _ d rest);
    [|rewrite Hf, length_app; lia|exact Hf|exact Hpre|exact Hd].
  fields. rewrite Hpc, Hdev.
  f_equal. same_world. rewrite <- !app_assoc. reflexivity.
Qed.

Lemma tank_fuel_fills_witness :
  tank_fuel (controller (map (level "fuel_level") [99; 100]) []) =
  Done tt (with_state FUEL_READY (with_timeline
    [Sent (servo_frame 0 0); Slept (1 # 5); Sent (servo_frame 0 100)]
    (controller [] []))).
Proof.
  apply (tank_fuel_fills (controller (map (level "fuel_level") [99; 100]) [])
           0 100 0 [level "fuel_level" 99] (level "fuel_level" 100) []);
    try reflexivity.
  - repeat constructor; vm_compute; reflexivity.
  - vm_compute. discriminate.
Defined.

(** X3.  The loading phases have no abort path.  Whatever the telemetry,
    and whether the phase returns, raises or is still polling, the state
    is the phase's own ([TANKING_OX] or [OX_READY], [TANKING_FUEL] or
    [FUEL_READY]), never [ABORT]; the only exception is the [KeyError] of
    an unconfigured intake; and a phase that returns has sent exactly two
    frames, the intake to its open and then to its closed position. *)
Theorem loading_phases_never_abort w :
  (let o := tank_oxidizer w in
   (state (world_of o) = TANKING_OX \/ state (world_of o) = OX_READY) /\
   (forall e w', o = Raised e w' -> e = KeyError "oxidizer_intake") /\
   (forall w', o = Done tt w' ->
      state w' = OX_READY /\
      exists open close,
        servo_command (c w) "oxidizer_intake" servo_open_pos = Some open /\
        servo_command (c w) "oxidizer_intake" servo_closed_pos = Some close /\
        sent_since w w' [open; close])) /\
  (let o := tank_fuel w in
   (state (world_of o) = TANKING_FUEL \/ state (world_of o) = FUEL_READY) /\
   (forall e w', o = Raised e w' -> e = KeyError "fuel_intake") /\
   (forall w', o = Done tt w' ->
      state w' = FUEL_READY /\
      exists open close,
        servo_command (c w) "fuel_intake" servo_open_pos = Some open /\
        servo_command (c w) "fuel_intake" servo_closed_pos = Some close /\
        sent_since w w' [open; close])).
Proof.
  split.
  - destruct (tank_oxidizer_outcome w) as (Hs & _ & He & Hd). auto.
  - destruct (tank_fuel_outcome w) as (Hs & _ & He & Hd). auto.
Qed.

Lemma loading_phases_never_abort_witness :
  state (with_state FUEL_READY (with_timeline
    [Sent (servo_frame 0 0); Slept (1 # 5); Sent (servo_frame 0 100)]
    (controller [] []))) = FUEL_READY.
Proof.
  destruct (loading_phases_never_abort
              (controller (map (level "fuel_level") [99; 100]) []))
    as (_ & _ & _ & Hdone).
  apply Hdone. reflexivity.
Defined.

(** ** Ascent, whatever the telemetry *)

Lemma arm_loop_quiet start n : forall w,
  let o := arm_loop start n w in
  (exists evs, sleeps (1 # 2) evs /\ quiet w (world_of o) evs) /\
  forall e w', o <> Raised e w'.
Proof.
  induction n as [|n IH]; intros w.
  { split; [|discriminate]. exists []. split; [apply sleeps_nil | apply quiet_refl]. }
  destruct (feed w) as [|d rest] eqn:Hf.
  { rewrite arm_loop_starved by exact Hf. split; [|discriminate].
    exists [Slept (1 # 2)]. split; [by exists 1%nat | apply quiet_sleep]. }
  rewrite (arm_loop_step start n w d rest Hf). cbv zeta.
  assert (Hstep : quiet w (with_feed rest
                    (with_timeline (timeline w ++ [Slept (1 # 2)]) w))
                    [Slept (1 # 2)])
    by (unfold quiet; fields; auto 10).
  destruct (Qlt_bool 1 _).
  - split; [|discriminate]. exists [Slept (1 # 2)]. split; [by exists 1%nat | exact Hstep].
  - match goal with
    | |- context [arm_loop _ n ?W] => destruct (IH W) as ((evs & Hsl & Hq) & Hne)
    end.
    split; [|exact Hne]. exists ([Slept (1 # 2)] ++ evs).
    split; [by apply sleeps_cons|]. eapply quiet_trans; [exact Hstep | exact Hq].
Qed.

(** The tracking loop sends nothing and never raises; when it returns, the
    state is [APOGEE] and both apogee fields are set. *)
Lemma track_loop_outcome n : forall last w,
  let o := track_loop last n w in
  (exists evs, sleeps (1 # 2) evs /\
     c (world_of o) = c w /\ landed (world_of o) = landed w /\
     timeline (world_of o) = timeline w ++ evs) /\
  (forall e w', o <> Raised e w') /\
  (forall w', o = Done tt w' ->
     state w' = APOGEE /\ is_Some (apogee_alt w') /\ is_Some (apogee_time w')).
Proof.
  induction n as [|n IH]; intros last w.
  { split; [|split; discriminate]. exists []. split; [apply sleeps_nil|].
    cbn. by rewrite app_nil_r. }
  destruct (feed w) as [|d rest] eqn:Hf.
  { rewrite track_loop_starved by exact Hf. split; [|split; discriminate].
    exists [Slept (1 # 2)]. split; [by exists 1%nat|]. cbn [world_of]. fields. auto. }
  rewrite (track_loop_step last n w d rest Hf). cbv zeta.
  destruct (Qlt_bool _ last).
  - destruct (clock w) as [|t k].
    + split; [|split; discriminate].
      exists [Slept (1 # 2)]. split; [by exists 1%nat|]. cbn [world_of]. fields. auto.
    + split; [|split; [discriminate|]].
      * exists [Slept (1 # 2)]. split; [by exists 1%nat|]. cbn [world_of]. fields. auto.
      * intros w' [= <-]. fields. eauto.
  - match goal with
    | |- context [track_loop _ n ?W] =>
        destruct (IH (reading "altitude" d) W)
          as ((evs & Hsl & Hc & Hl & He) & Hne & Hdone)
    end.
    split; [|split; [exact Hne | exact Hdone]].
    exists ([Slept (1 # 2)] ++ evs). split; [by apply sleeps_cons|].
    fields in Hc Hl He. rewrite Hc, Hl, He, <- app_assoc. auto.
Qed.

Lemma climb_and_detect_apogee_unfold w :
  state w <> ABORT ->
  climb_and_detect_apogee w =
    match altitude (with_state ASCENT w) with
    | Done start_alt w1 =>
        match arm_loop start_alt (S (length (feed w1))) w1 with
        | Done _ w2 =>
            match altitude w2 with
            | Done last_alt w3 => track_loop last_alt (S (length (feed w3))) w3
            | Raised e w3 => Raised e w3
            | Starved w3 => Starved w3
            end
        | Raised e w2 => Raised e w2
        | Starved w2 => Starved w2
        end
    | Raised e w1 => Raised e w1
    | Starved w1 => Starved w1
    end.
Proof.
  intros Hs%FlightState_eqb_neq. unfold climb_and_detect_apogee.
  rewrite bind_unfold. unfold gets at 1. rewrite Hs.
  rewrite bind_unfold. unfold set_state at 1, modify at 1.
  rewrite bind_unfold.
  destruct (altitude _) as [start_alt w1| |]; [|reflexivity..].
  rewrite bind_unfold. unfold polls at 1, gets at 1. rewrite bind_unfold.
  destruct (arm_loop _ _ _) as [[] w2| |]; reflexivity.
Qed.

Lemma climb_and_detect_apogee_outcome w :
  state w <> ABORT ->
  let o := climb_and_detect_apogee w in
  sent_since w (world_of o) [] /\
  landed (world_of o) = landed w /\
  (forall e w', o <> Raised e w') /\
  (forall w', o = Done tt w' ->
     state w' = APOGEE /\ is_Some (apogee_alt w') /\ is_Some (apogee_time w')).
Proof.
  intros Hs. rewrite (climb_and_detect_apogee_unfold w Hs).
  destruct (altitude (with_state ASCENT w)) as [start_alt w1|e1 w1|w1] eqn:H1;
    [|exfalso; by eapply altitude_never_raises|];
    pose proof (sensor_quiet "altitude" (with_state ASCENT w)) as [Hq1 _];
    fold altitude in Hq1; rewrite H1 in Hq1; cbn [world_of] in Hq1;
    destruct Hq1 as (Hc1 & _ & _ & _ & Hl1 & He1); fields in Hc1 Hl1 He1;
    [|cbn [world_of]; split; [split; [exact Hc1|]; exists []; auto|];
      split; [exact Hl1|]; split; discriminate].
  destruct (arm_loop_quiet start_alt (S (length (feed w1))) w1)
    as ((evs2 & Hsl2 & Hq2) & Hne2).
  destruct (arm_loop _ _ w1) as [[] w2|e2 w2|w2];
    [|exfalso; by eapply Hne2|];
    cbn [world_of] in Hq2; destruct Hq2 as (Hc2 & _ & _ & _ & Hl2 & He2);
    [|cbn [world_of]; split; [split; [congruence|]; exists evs2;
        rewrite He2, He1, app_nil_r; split; [reflexivity|];
        by eapply sleeps_sent|];
      split; [congruence|]; split; discriminate].
  destruct (altitude w2) as [last_alt w3|e3 w3|w3] eqn:H3;
    [|exfalso; by eapply altitude_never_raises|];
    pose proof (sensor_quiet "altitude" w2) as [Hq3 _];
    fold altitude in Hq3; rewrite H3 in Hq3; cbn [world_of] in Hq3;
    destruct Hq3 as (Hc3 & _ & _ & _ & Hl3 & He3);
    [|cbn [world_of]; split; [split; [congruence|]; exists evs2;
        rewrite He3, He2, He1, !app_nil_r; split; [reflexivity|];
        by eapply sleeps_sent|];
      split; [congruence|]; split; discriminate].
  destruct (track_loop_outcome (S (length (feed w3))) last_alt w3)
    as ((evs4 & Hsl4 & Hc4 & Hl4 & He4) & Hne4 & Hdone4).
  split; [|split; [congruence|split; [exact Hne4 | exact Hdone4]]].
  split; [congruence|]. exists (evs2 ++ evs4).
  rewrite He4, He3, He2, He1, !app_nil_r, <- app_assoc.
  split; [reflexivity|].
  rewrite sent_frames_app, (sleeps_sent _ _ Hsl2), (sleeps_sent _ _ Hsl4).
  reflexivity.
Qed.

(** ** Descent, whatever the telemetry *)

Lemma deploy_post_quiet w w1 evs o :
  quiet w w1 evs -> sent_frames evs = [] -> deploy_post w1 o -> deploy_post w o.
Proof.
  intros Hq Hsent. pose proof Hq as (Hc & Hs & _ & _ & Hl & _).
  destruct o as [[] w'|e w'|w']; cbn [deploy_post]; rewrite ?Hc, ?Hs, ?Hl.
  - intros (? & ? & p & ? & ?). repeat split; auto. exists p.
    split; [assumption|]. by eapply sent_since_quiet.
  - intros (? & ? & ? & ?). repeat split; auto; by eapply sent_since_quiet.
  - intros (? & ? & ?). repeat split; auto; by eapply sent_since_quiet.
Qed.

Lemma deploy_post_starved w : deploy_post w (Starved w).
Proof. cbn. auto using sent_since_refl. Qed.

Lemma deploy_loop_post n : forall w, deploy_post w (deploy_loop n w).
Proof.
  induction n as [|n IH]; intros w; [apply deploy_post_starved|].
  rewrite deploy_loop_unfold.
  apply (bind_silent deploy_post);
    [exact deploy_post_quiet | exact deploy_post_starved
    | apply silent_vertical_speed | intros v w1].
  apply (bind_silent deploy_post);
    [exact deploy_post_quiet | exact deploy_post_starved
    | apply silent_altitude | intros alt_now w2].
  apply (bind_silent deploy_post);
    [exact deploy_post_quiet | exact deploy_post_starved
    | apply silent_time_time | intros now w3].
  apply (bind_silent deploy_post);
    [exact deploy_post_quiet | exact deploy_post_starved
    | apply silent_gets | intros at_apogee w4].
  apply (bind_silent deploy_post);
    [exact deploy_post_quiet | exact deploy_post_starved
    | apply silent_py_or | intros ref w5].
  destruct (deploy_condition _ _ _).
  - rewrite bind_unfold. unfold relay_open. rewrite bind_unfold. unfold getitem.
    destruct (relay_map (c w5) !! "parachute") as [p|] eqn:Hp;
      cbn [deploy_post cm_push_send set_state modify]; unfold relay_command.
    + fields. rewrite Hp. repeat split; auto. eexists. split; [reflexivity|].
      split; [reflexivity|]. exists [Sent (relay_frame RELAY_OPEN p)]. auto.
    + auto using sent_since_refl.
  - apply (bind_silent deploy_post);
      [exact deploy_post_quiet | exact deploy_post_starved
      | apply silent_sleep | intros [] w6].
    apply IH.
Qed.

Lemma landing_post_quiet w w1 evs o :
  quiet w w1 evs -> sent_frames evs = [] -> landing_post w1 o -> landing_post w o.
Proof.
  intros Hq Hsent. pose proof Hq as (Hc & Hs & _ & _ & Hl & _).
  destruct o as [[] w'|e w'|w']; cbn [landing_post]; rewrite ?Hs, ?Hl.
  - intros (? & ? & ?). repeat split; auto; by eapply sent_since_quiet.
  - auto.
  - intros (? & ? & ?). repeat split; auto; by eapply sent_since_quiet.
Qed.

Lemma landing_post_starved w : landing_post w (Starved w).
Proof. cbn. auto using sent_since_refl. Qed.

Lemma landing_loop_post n : forall w, landing_post w (landing_loop n w).
Proof.
  induction n as [|n IH]; intros w; [apply landing_post_starved|].
  rewrite landing_loop_unfold.
  apply (bind_silent landing_post);
    [exact landing_post_quiet | exact landing_post_starved
    | apply silent_altitude | intros alt1 w1].
  apply (bind_silent landing_post);
    [exact landing_post_quiet | exact landing_post_starved
    | apply silent_sleep | intros [] w2].
  apply (bind_silent landing_post);
    [exact landing_post_quiet | exact landing_post_starved
    | apply silent_altitude | intros alt2 w3].
  destruct (Qlt_bool _ _); [|apply IH].
  cbv [mbind M_bind set_state modify]. cbn [landing_post]. fields.
  repeat split; auto. exists []. by rewrite app_nil_r.
Qed.

Lemma low_apogee_true a :
  low_apogee a = true <-> a = None \/ exists q, a = Some q /\ q < 5.
Proof.
  destruct a as [q|]; cbn [low_apogee].
  - destruct (Qeq_bool q 0) eqn:E.
    + apply Qeq_bool_iff in E. split; [|done]. intros _. right. exists q.
      split; [done|]. rewrite E. reflexivity.
    + rewrite Qlt_bool_iff. split.
      * intros H. right. by exists q.
      * by intros [[=] | (q' & [= <-] & H)].
  - split; [auto | done].
Qed.

Lemma descent_and_chute_unfold w :
  state w <> ABORT ->
  descent_and_chute w =
    if low_apogee (apogee_alt w)
    then Done tt (with_landed true (with_state LANDED w))
    else ((polls ≫= deploy_loop);; (polls ≫= landing_loop)) (with_state DESCENT w).
Proof.
  intros Hs%FlightState_eqb_neq. unfold descent_and_chute.
  rewrite bind_unfold. unfold gets at 1. rewrite Hs.
  rewrite bind_unfold. unfold gets at 1. rewrite bind_unfold.
  unfold py_or, low_apogee.
  destruct (apogee_alt w) as [q|]; [destruct (Qeq_bool q 0)|];
    cbn [mret M_ret]; try reflexivity.
  destruct (Qlt_bool q 5); reflexivity.
Qed.



Lemma descent_and_chute_post w :
  state w <> ABORT ->
  match descent_and_chute w with
  | Done _ w' =>
      state w' = LANDED /\ landed w' = true /\
      (sent_since w w' [] \/
       exists p, relay_command (c w) "parachute" RELAY_OPEN = Some p /\
                 sent_since w w' [p])
  | Raised e w' =>
      e = KeyError "parachute" /\ relay_map (c w) !! "parachute" = None /\
      state w' = DESCENT /\ sent_since w w' []
  | Starved w' =>
      (state w' = DESCENT /\ sent_since w w' []) \/
      (state w' = CHUTE_DEPLOYED /\
       exists p, relay_command (c w) "parachute" RELAY_OPEN = Some p /\
                 sent_since w w' [p])
  end.
Proof.
  intros Hs. rewrite (descent_and_chute_unfold w Hs).
  destruct (low_apogee _).
  { repeat split; auto. left. split; [reflexivity|]. exists [].
    fields. by rewrite app_nil_r. }
  rewrite bind_unfold, bind_unfold. unfold polls at 1, gets at 1.
  pose proof (deploy_loop_post (S (length (feed (with_state DESCENT w))))
                (with_state DESCENT w)) as Hd.
  destruct (deploy_loop _ _) as [[] w1|e w1|w1]; cbn [deploy_post] in Hd;
    fields in Hd.
  - destruct Hd as (Hs1 & Hl1 & p & Hp & Hsent1).
    rewrite bind_unfold. unfold polls at 1, gets at 1.
    pose proof (landing_loop_post (S (length (feed w1))) w1) as Hl.
    destruct (landing_loop _ _) as [[] w2|e w2|w2]; cbn [landing_post] in Hl.
    + destruct Hl as (Hs2 & Hl2 & Hsent2). repeat split; auto.
      right. exists p. split; [exact Hp|].
      apply (sent_since_trans _ _ _ [p] [] Hsent1) in Hsent2.
      by rewrite app_nil_r in Hsent2.
    + destruct Hl.
    + destruct Hl as (Hs2 & Hl2 & Hsent2). right. split; [congruence|].
      exists p. split; [exact Hp|].
      apply (sent_since_trans _ _ _ [p] [] Hsent1) in Hsent2.
      by rewrite app_nil_r in Hsent2.
  - exact Hd.
  - destruct Hd as (Hs1 & _ & Hsent1). auto.
Qed.

(** ** Heating and ignition, whatever the telemetry *)

Lemma heat_loop_outcome n : forall w,
  let o := heat_loop n w in
  (exists evs, sleeps (1 # 5) evs /\ c (world_of o) = c w /\
     timeline (world_of o) = timeline w ++ evs) /\
  (forall e w', o <> Raised e w') /\
  (forall w', o = Starved w' -> state w' = state w).
Proof.
  induction n as [|n IH]; intros w.
  { split; [|split; [discriminate|by intros w' [= <-]]].
    exists []. split; [apply sleeps_nil|]. cbn. by rewrite app_nil_r. }
  destruct (feed w) as [|d rest] eqn:Hf.
  { rewrite heat_loop_starved by exact Hf.
    split; [|split; [discriminate|by intros w' [= <-]]].
    exists []. split; [apply sleeps_nil|]. cbn. by rewrite app_nil_r. }
  rewrite (heat_loop_step n w d rest Hf). cbv zeta.
  destruct (in_window _).
  { split; [|split; discriminate].
    exists []. split; [apply sleeps_nil|]. cbn. by rewrite app_nil_r. }
  destruct (Qle_bool 90 _).
  { split; [|split; discriminate].
    exists []. split; [apply sleeps_nil|]. cbn. by rewrite app_nil_r. }
  match goal with
  | |- context [heat_loop n ?W] =>
      destruct (IH W) as ((evs & Hsl & Hc & He) & Hne & Hst)
  end.
  split; [|split; [exact Hne | exact Hst]].
  exists ([Slept (1 # 5)] ++ evs). split; [by apply sleeps_cons|].
  rewrite Hc, He. fields. rewrite <- app_assoc. auto.
Qed.

Lemma heat_oxidizer_post w :
  match heat_oxidizer w with
  | Done _ w' =>
      (state w' = ARMED \/ state w' = ABORT) /\
      exists on off,
        relay_command (c w) "oxidizer_heater" RELAY_OPEN = Some on /\
        relay_command (c w) "oxidizer_heater" RELAY_CLOSE = Some off /\
        sent_since w w' [on; off]
  | Raised e w' =>
      e = KeyError "oxidizer_heater" /\
      relay_map (c w) !! "oxidizer_heater" = None /\
      state w' = HEATING /\ sent_since w w' []
  | Starved w' =>
      state w' = HEATING /\
      exists on, relay_command (c w) "oxidizer_heater" RELAY_OPEN = Some on /\
                 sent_since w w' [on]
  end.
Proof.
  unfold relay_command.
  destruct (relay_map (c w) !! "oxidizer_heater") as [dev|] eqn:Hdev.
  2:{ cbv [heat_oxidizer mbind M_bind set_state modify relay_open getitem].
      fields. rewrite Hdev. repeat split; auto. exists []. fields.
      by rewrite app_nil_r. }
  rewrite (heat_oxidizer_unfold w dev Hdev). cbv zeta.
  match goal with
  | |- context [heat_loop ?n ?W] =>
      destruct (heat_loop_outcome n W) as ((evs & Hsl & Hc & He) & Hne & Hst);
      pose proof (heat_loop_exit n W) as Hexit
  end.
  destruct (heat_loop _ _) as [[] w3|e w3|w3];
    cbn [world_of] in Hc, He; fields in Hc He.
  - destruct (Hexit w3 eq_refl) as (_ & Hs & _). fields in Hs.
    rewrite Hc, Hdev. fields.
    assert (Hsent : forall w',
              c w' = c w ->
              timeline w' = timeline w3 ++ [Sent (relay_frame RELAY_CLOSE dev)] ->
              sent_since w w' [relay_frame RELAY_OPEN dev; relay_frame RELAY_CLOSE dev]).
    { intros w' Hc' Ht'. split; [exact Hc'|].
      exists ([Sent (relay_frame RELAY_OPEN dev)] ++ evs ++
              [Sent (relay_frame RELAY_CLOSE dev)]).
      rewrite Ht', He, <- !app_assoc. split; [reflexivity|].
      rewrite !sent_frames_app, (sleeps_sent _ _ Hsl). reflexivity. }
    destruct Hs as [Hs | Hs]; rewrite Hs; cbn [FlightState_eqb negb];
      (split; [auto|]); eexists _, _;
      (split; [reflexivity|]); (split; [reflexivity|]);
      apply Hsent; fields; auto.
  - exfalso. by eapply Hne.
  - rewrite (Hst w3 eq_refl). fields. split; [reflexivity|].
    eexists. split; [reflexivity|]. split; [exact Hc|].
    exists ([Sent (relay_frame RELAY_OPEN dev)] ++ evs).
    rewrite He, <- app_assoc. split; [reflexivity|].
    rewrite sent_frames_app, (sleeps_sent _ _ Hsl). reflexivity.
Qed.

Ltac solve_sent_since :=
  unfold sent_since; fields; try (split; [reflexivity|]);
  rewrite <- ?app_assoc;
  first [ by (exists []; rewrite app_nil_r)
        | eexists; split; reflexivity ].

(** The commands of a sequence that passed its checks, lookup by lookup:
    an unconfigured device raises [KeyError] where the sequence stands,
    with the frames sent so far. *)
Lemma ignition_fire_post w :
  match (pos ← getitem servo_open_pos "fuel_main";
         set_servo_position "fuel_main" pos;;
         time_sleep (1 # 5);;
         pos ← getitem servo_open_pos "oxidizer_main";
         set_servo_position "oxidizer_main" pos;;
         time_sleep (1 # 5);;
         relay_open "igniter";;
         set_state BOOST) w with
  | Done _ w' =>
      state w' = BOOST /\
      exists frames, ignition_commands (c w) = Some frames /\
                     sent_since w w' frames
  | Raised e w' =>
      state w' = state w /\
      ((e = KeyError "fuel_main" /\
        servo_command (c w) "fuel_main" servo_open_pos = None /\
        sent_since w w' []) \/
       exists fm, servo_command (c w) "fuel_main" servo_open_pos = Some fm /\
         ((e = KeyError "oxidizer_main" /\
           servo_command (c w) "oxidizer_main" servo_open_pos = None /\
           sent_since w w' [fm]) \/
          exists om, servo_command (c w) "oxidizer_main" servo_open_pos = Some om /\
            e = KeyError "igniter" /\
            relay_map (c w) !! "igniter" = None /\
            sent_since w w' [fm; om]))
  | Starved _ => False
  end.
Proof.
  unfold ignition_commands, servo_command, relay_command.
  cbv [mbind M_bind getitem set_servo_position relay_open cm_push_send
       time_sleep set_state modify].
  fields.
  destruct (servo_open_pos (c w) !! "fuel_main") as [pf|];
    [|cbn; split; [reflexivity|]; left;
      repeat (split; [reflexivity|]); solve_sent_since].
  fields. destruct (servo_map (c w) !! "fuel_main") as [df|];
    [|cbn; split; [reflexivity|]; left;
      repeat (split; [reflexivity|]); solve_sent_since].
  fields. destruct (servo_open_pos (c w) !! "oxidizer_main") as [po|];
    [|cbn; split; [reflexivity|]; right; eexists; split; [reflexivity|];
      left; repeat (split; [reflexivity|]); solve_sent_since].
  fields. destruct (servo_map (c w) !! "oxidizer_main") as [dox|];
    [|cbn; split; [reflexivity|]; right; eexists; split; [reflexivity|];
      left; repeat (split; [reflexivity|]); solve_sent_since].
  fields. destruct (relay_map (c w) !! "igniter") as [di|] eqn:Hdi;
    [|cbn; split; [reflexivity|]; right; eexists; split; [reflexivity|];
      right; eexists; repeat (split; [reflexivity|]); solve_sent_since].
  cbn. split; [reflexivity|]. eexists. split; [reflexivity|]. solve_sent_since.
Qed.

Lemma servo_is_closed_raises name w e w' :
  servo_is_closed name w = Raised e w' ->
  e = KeyError name /\ servo_closed_pos (c w) !! name = None.
Proof.
  cbv [servo_is_closed mbind M_bind _telem get_telem dict_get getitem mret M_ret].
  destruct (feed w) as [|d rest]; [discriminate|].
  cbn [value_of_default].
  destruct (d !! (name +:+ "_pos")) as [v|]; cbn [from_option id py_float];
    [|discriminate].
  destruct (py_float v) as [p|]; [|discriminate].
  cbn [c with_feed].
  destruct (servo_closed_pos (c w) !! name); [discriminate|].
  intros [= <- _]. auto.
Qed.

Lemma oxidizer_pressure_never_raises w e w' : oxidizer_pressure w <> Raised e w'.
Proof. apply (sensor_quiet "oxidizer_pressure" w). Qed.

Lemma ignition_sequence_post w :
  state w <> ABORT ->
  match ignition_sequence w with
  | Done _ w' =>
      (state w' = ABORT /\ sent_since w w' []) \/
      (state w' = BOOST /\
       exists frames, ignition_commands (c w) = Some frames /\
                      sent_since w w' frames)
  | Raised e w' =>
      state w' = IGNITION_SEQUENCE /\
      (exists name, e = KeyError name) /\
      exists frames,
        sent_since w w' frames /\
        (frames = [] \/
         exists fm, servo_command (c w) "fuel_main" servo_open_pos = Some fm /\
           (frames = [fm] \/
            exists om, servo_command (c w) "oxidizer_main" servo_open_pos = Some om /\
                       frames = [fm; om]))
  | Starved w' => state w' = IGNITION_SEQUENCE /\ sent_since w w' []
  end.
Proof.
  intros Hs. rewrite (ignition_sequence_unfold w Hs).
  assert (Hsame : forall w0 s,
            c w0 = c w -> timeline w0 = timeline w ->
            sent_since w (with_state s w0) []).
  { intros w0 s Hc Ht. split; [exact Hc|]. exists []. fields.
    by rewrite app_nil_r. }
  pose proof (servo_is_closed_frame "fuel_intake" w) as F1. cbv zeta in F1.
  destruct (servo_is_closed "fuel_intake" w) as [[] w1|e1 w1|w1] eqn:H1;
    cbn [world_of] in F1; destruct F1 as (Hc1 & _ & Ht1).
  2:{ left. auto. }
  2:{ apply servo_is_closed_raises in H1 as (-> & _).
      split; [reflexivity|]. split; [eauto|]. exists []. auto. }
  2:{ auto. }
  pose proof (servo_is_closed_frame "oxidizer_intake" w1) as F2. cbv zeta in F2.
  destruct (servo_is_closed "oxidizer_intake" w1) as [[] w2|e2 w2|w2] eqn:H2;
    cbn [world_of] in F2; destruct F2 as (Hc2 & _ & Ht2).
  2:{ left. split; [reflexivity|]. apply Hsame; congruence. }
  2:{ apply servo_is_closed_raises in H2 as (-> & _).
      split; [reflexivity|]. split; [eauto|]. exists [].
      split; [apply Hsame; congruence | auto]. }
  2:{ split; [reflexivity|]. apply Hsame; congruence. }
  pose proof (oxidizer_pressure_frame w2) as F3. cbv zeta in F3.
  destruct (oxidizer_pressure w2) as [p w3|e3 w3|w3] eqn:H3;
    cbn [world_of] in F3; destruct F3 as (Hc3 & _ & Ht3).
  2:{ exfalso. by eapply oxidizer_pressure_never_raises. }
  2:{ split; [reflexivity|]. apply Hsame; congruence. }
  destruct (Qlt_bool p 40).
  { left. split; [reflexivity|]. apply Hsame; congruence. }
  destruct (Qlt_bool 65 p).
  { left. split; [reflexivity|]. apply Hsame; congruence. }
  assert (Hc : c (with_state IGNITION_SEQUENCE w3) = c w) by (fields; congruence).
  assert (Hshift : forall w' frames,
            sent_since (with_state IGNITION_SEQUENCE w3) w' frames ->
            sent_since w w' frames).
  { intros w' frames (Hc' & evs & He & Hf). split; [congruence|].
    exists evs. fields in He. split; [congruence | exact Hf]. }
  pose proof (ignition_fire_post (with_state IGNITION_SEQUENCE w3)) as Hfire.
  rewrite Hc in Hfire.
  match type of Hfire with
  | match ?o with _ => _ end => destruct o as [[] w'|e w'|w']
  end.
  - destruct Hfire as (Hst & frames & Hcmd & Hsent). right. eauto 10.
  - destruct Hfire as (Hst & Hcases). fields in Hst.
    split; [exact Hst|].
    destruct Hcases as [(-> & _ & Hsent) | (fm & Hfm & Hcases)].
    { split; [eauto|]. exists []. auto. }
    destruct Hcases as [(-> & _ & Hsent) | (om & Hom & -> & _ & Hsent)].
    { split; [eauto|]. exists [fm]. split; [auto|]. right. eauto. }
    split; [eauto|]. exists [fm; om]. split; [auto|]. right.
    exists fm. split; [exact Hfm|]. right. eauto.
  - destruct Hfire.
Qed.

(** ** The mission *)

Lemma unless_abort_run next w :
  unless_abort next w =
    if FlightState_eqb (state w) ABORT then Done tt w else next w.
Proof.
  unfold unless_abort. rewrite bind_unfold. unfold gets.
  destruct (FlightState_eqb (state w) ABORT); reflexivity.
Qed.

Lemma unless_abort_continues next w :
  state w <> ABORT -> unless_abort next w = next w.
Proof. intros Hs%FlightState_eqb_neq. by rewrite unless_abort_run, Hs. Qed.

(** Ascent and descent. *)
Lemma flight_post w :
  state w <> ABORT ->
  match (climb_and_detect_apogee;; unless_abort descent_and_chute) w with
  | Done _ w' =>
      state w' = LANDED /\ landed w' = true /\
      exists tail, sent_since w w' tail /\
        (tail = [] \/
         exists p, relay_command (c w) "parachute" RELAY_OPEN = Some p /\
                   tail = [p])
  | Raised e w' => (exists name, e = KeyError name) /\ state w' <> ABORT
  | Starved _ => True
  end.
Proof.
  intros Hs. rewrite bind_unfold.
  destruct (climb_and_detect_apogee_outcome w Hs) as (Hsent & _ & Hne & Hdone).
  destruct (climb_and_detect_apogee w) as [[] w1|e w1|w1];
    [|exfalso; by eapply Hne|exact I].
  destruct (Hdone w1 eq_refl) as (Hs1 & _). cbn [world_of] in Hsent.
  assert (Hs1' : state w1 <> ABORT) by (rewrite Hs1; discriminate).
  rewrite (unless_abort_continues _ _ Hs1').
  pose proof (descent_and_chute_post w1 Hs1') as Hd.
  destruct Hsent as (Hc & Hsent'). pose proof (conj Hc Hsent') as Hsent.
  rewrite Hc in Hd.
  destruct (descent_and_chute w1) as [[] w2|e w2|w2]; [| |exact I].
  - destruct Hd as (Hs2 & Hl2 & [Hsent2 | (p & Hp & Hsent2)]).
    + repeat split; auto. exists [].
      split; [apply (sent_since_trans _ _ _ [] [] Hsent Hsent2) | auto].
    + repeat split; auto. exists [p].
      split; [apply (sent_since_trans _ _ _ [] [p] Hsent Hsent2) | eauto].
  - destruct Hd as (-> & _ & Hs2 & _). split; [eauto|]. rewrite Hs2. discriminate.
Qed.

(** Ignition, then the flight. *)
Lemma powered_post w :
  state w <> ABORT ->
  match (ignition_sequence;;
         unless_abort (climb_and_detect_apogee;;
                       unless_abort descent_and_chute)) w with
  | Done _ w' =>
      (state w' = ABORT /\ sent_since w w' []) \/
      (state w' = LANDED /\ landed w' = true /\
       exists ign tail,
         ignition_commands (c w) = Some ign /\
         sent_since w w' (ign ++ tail) /\
         (tail = [] \/
          exists p, relay_command (c w) "parachute" RELAY_OPEN = Some p /\
                    tail = [p]))
  | Raised e w' => (exists name, e = KeyError name) /\ state w' <> ABORT
  | Starved _ => True
  end.
Proof.
  intros Hs. rewrite bind_unfold.
  pose proof (ignition_sequence_post w Hs) as Hi.
  destruct (ignition_sequence w) as [[] w1|e w1|w1]; [| |exact I].
  2:{ destruct Hi as (Hs1 & Hname & _). split; [exact Hname|].
      rewrite Hs1. discriminate. }
  destruct Hi as [(Hs1 & Hsent) | (Hs1 & ign & Hign & Hsent)].
  { rewrite unless_abort_run, Hs1. cbn [FlightState_eqb]. left. auto. }
  assert (Hs1' : state w1 <> ABORT) by (rewrite Hs1; discriminate).
  rewrite (unless_abort_continues _ _ Hs1').
  pose proof (flight_post w1 Hs1') as Hf.
  pose proof Hsent as (Hc & _). rewrite Hc in Hf.
  match type of Hf with
  | match ?o with _ => _ end => destruct o as [[] w2|e w2|w2]
  end; [|exact Hf|exact I].
  destruct Hf as (Hs2 & Hl2 & tail & Hsent2 & Htail).
  right. repeat split; auto. exists ign, tail.
  split; [exact Hign|]. split; [|exact Htail].
  by eapply sent_since_trans.
Qed.

(** Heating, then the powered flight. *)
Lemma armed_post w :
  match (heat_oxidizer;;
         unless_abort (ignition_sequence;;
         unless_abort (climb_and_detect_apogee;;
                       unless_abort descent_and_chute))) w with
  | Done _ w' =>
      exists on off,
        relay_command (c w) "oxidizer_heater" RELAY_OPEN = Some on /\
        relay_command (c w) "oxidizer_heater" RELAY_CLOSE = Some off /\
        ((state w' = ABORT /\ sent_since w w' [on; off]) \/
         (state w' = LANDED /\ landed w' = true /\
          exists ign tail,
            ignition_commands (c w) = Some ign /\
            sent_since w w' ([on; off] ++ ign ++ tail) /\
            (tail = [] \/
             exists p, relay_command (c w) "parachute" RELAY_OPEN = Some p /\
                       tail = [p])))
  | Raised e w' => (exists name, e = KeyError name) /\ state w' <> ABORT
  | Starved _ => True
  end.
Proof.
  rewrite bind_unfold. pose proof (heat_oxidizer_post w) as Hh.
  destruct (heat_oxidizer w) as [[] w1|e w1|w1]; [| |exact I].
  2:{ destruct Hh as (-> & _ & Hs1 & _). split; [eauto|]. rewrite Hs1. discriminate. }
  destruct Hh as (Hs1 & on & off & Hon & Hoff & Hsent).
  destruct Hs1 as [Hs1 | Hs1].
  2:{ rewrite unless_abort_run, Hs1. cbn [FlightState_eqb].
      exists on, off. auto. }
  assert (Hs1' : state w1 <> ABORT) by (rewrite Hs1; discriminate).
  rewrite (unless_abort_continues _ _ Hs1').
  pose proof (powered_post w1 Hs1') as Hp.
  pose proof Hsent as (Hc & _). rewrite Hc in Hp.
  match type of Hp with
  | match ?o with _ => _ end => destruct o as [[] w2|e w2|w2]
  end.
  - exists on, off. split; [exact Hon|]. split; [exact Hoff|].
    destruct Hp as [(Hs2 & Hsent2) | (Hs2 & Hl2 & ign & tail & Hign & Hsent2 & Htail)].
    + left. split; [exact Hs2|].
      apply (sent_since_trans _ _ _ [on; off] [] Hsent) in Hsent2.
      by rewrite app_nil_r in Hsent2.
    + right. repeat split; auto. exists ign, tail.
      split; [exact Hign|]. split; [|exact Htail].
      by eapply sent_since_trans.
  - exact Hp.
  - exact I.
Qed.

(** X10.  The mission, end to end.  Whenever [full_auto_mission] returns,
    the state is [ABORT] or [LANDED].  In [ABORT] the frames sent are the
    six of the ground phases and nothing else: no main valve, no igniter,
    no parachute.  In [LANDED] the landed flag is set and the frames are
    those six, the three of the ignition, and then at most the one
    parachute relay-open.  An exception is always a [KeyError] and never
    leaves the state [ABORT]. *)
Theorem full_auto_mission_ends w :
  match full_auto_mission w with
  | Done _ w' =>
      exists ground,
        ground_commands (c w) = Some ground /\
        ((state w' = ABORT /\ sent_since w w' ground) \/
         (state w' = LANDED /\ landed w' = true /\
          exists ign tail,
            ignition_commands (c w) = Some ign /\
            sent_since w w' (ground ++ ign ++ tail) /\
            (tail = [] \/
             exists p, relay_command (c w) "parachute" RELAY_OPEN = Some p /\
                       tail = [p])))
  | Raised e w' => (exists name, e = KeyError name) /\ state w' <> ABORT
  | Starved _ => True
  end.
Proof.
  unfold full_auto_mission. rewrite bind_unfold.
  destruct (tank_oxidizer_outcome w) as (Hst1 & _ & Hr1 & Hd1).
  destruct (tank_oxidizer w) as [[] w1|e w1|w1]; [| |exact I].
  2:{ rewrite (Hr1 e w1 eq_refl). split; [eauto|].
      cbn [world_of] in Hst1. destruct Hst1 as [-> | ->]; discriminate. }
  destruct (Hd1 w1 eq_refl) as (Hs1 & oo & oc & Hoo & Hoc & Hsent1).
  assert (Hs1' : state w1 <> ABORT) by (rewrite Hs1; discriminate).
  rewrite (unless_abort_continues _ _ Hs1'), bind_unfold.
  pose proof Hsent1 as (Hc1 & _).
  destruct (tank_fuel_outcome w1) as (Hst2 & _ & Hr2 & Hd2).
  destruct (tank_fuel w1) as [[] w2|e w2|w2]; [| |exact I].
  2:{ rewrite (Hr2 e w2 eq_refl). split; [eauto|].
      cbn [world_of] in Hst2. destruct Hst2 as [-> | ->]; discriminate. }
  destruct (Hd2 w2 eq_refl) as (Hs2 & fo & fc & Hfo & Hfc & Hsent2).
  rewrite Hc1 in Hfo, Hfc.
  assert (Hs2' : state w2 <> ABORT) by (rewrite Hs2; discriminate).
  rewrite (unless_abort_continues _ _ Hs2').
  pose proof Hsent2 as (Hc2 & _).
  pose proof (armed_post w2) as Ha. rewrite Hc2, Hc1 in Ha.
  pose proof (sent_since_trans _ _ _ _ _ Hsent1 Hsent2) as Hsent12.
  match type of Ha with
  | match ?o with _ => _ end => destruct o as [[] w3|e w3|w3]
  end; [|exact Ha|exact I].
  destruct Ha as (on & off & Hon & Hoff & Hends).
  exists [oo; oc; fo; fc; on; off]. split.
  { unfold ground_commands. rewrite Hoo, Hoc, Hfo, Hfc, Hon, Hoff. reflexivity. }
  destruct Hends as [(Hs3 & Hsent3) | (Hs3 & Hl3 & ign & tail & Hign & Hsent3 & Htail)].
  - left. split; [exact Hs3|].
    apply (sent_since_trans _ _ _ _ _ Hsent12 Hsent3).
  - right. repeat split; auto. exists ign, tail.
    split; [exact Hign|]. split; [|exact Htail].
    apply (sent_since_trans _ _ _ _ _ Hsent12 Hsent3).
Qed.

(** ** Heating that does not return *)

(** X4.  If [heat_oxidizer] raises, it is the [KeyError] of an
    unconfigured heater relay, raised before anything is sent, and the
    state is [HEATING].  If it is still polling when the telemetry ends,
    the state is [HEATING] and the one frame sent is the heater
    relay-open: the heater is on.  (A phase that returns has sent the
    relay-open and the relay-close.) *)
Theorem heat_oxidizer_unfinished w :
  match heat_oxidizer w with
  | Done _ w' =>
      exists on off,
        relay_command (c w) "oxidizer_heater" RELAY_OPEN = Some on /\
        relay_command (c w) "oxidizer_heater" RELAY_CLOSE = Some off /\
        sent_since w w' [on; off]
  | Raised e w' =>
      e = KeyError "oxidizer_heater" /\
      relay_map (c w) !! "oxidizer_heater" = None /\
      state w' = HEATING /\ sent_since w w' []
  | Starved w' =>
      state w' = HEATING /\
      exists on, relay_command (c w) "oxidizer_heater" RELAY_OPEN = Some on /\
                 sent_since w w' [on]
  end.
Proof.
  pose proof (heat_oxidizer_post w) as H.
  destruct (heat_oxidizer w) as [[] w'|e w'|w']; [|exact H..].
  destruct H as (_ & on & off & H). eauto.
Qed.

Example heat_oxidizer_stuck_below_window :
  let o := heat_oxidizer (controller (map pressure [10; 30; 50; 50; 50]) []) in
  state (world_of o) = HEATING /\
  sent_frames (timeline (world_of o)) = [relay_frame RELAY_OPEN 0].
Proof. vm_compute. split; reflexivity. Qed.

(** A pressure that jumps over the window between two polls is not a
    success: the heater stays on until 90 bar aborts. *)
Example heat_oxidizer_window_missed :
  state (world_of (heat_oxidizer (controller (map pressure [54; 66; 80; 90]) []))) =
    ABORT.
Proof. vm_compute. reflexivity. Qed.

(** ** Ignition, by outcome *)

(** X5.  Entered in a state other than [ABORT], [ignition_sequence]
    returns only in [ABORT], having sent nothing, or in [BOOST], having
    sent the three ignition frames.  If it raises, the exception is a
    [KeyError], the state is left at [IGNITION_SEQUENCE] (not [ABORT]),
    and the frames already sent are none, the fuel main valve, or both
    main valves: with [oxidizer_main] or [igniter] missing from the
    device maps, valves are open when the exception leaves the phase. *)
Theorem ignition_sequence_outcome w :
  state w <> ABORT ->
  match ignition_sequence w with
  | Done _ w' =>
      (state w' = ABORT /\ sent_since w w' []) \/
      (state w' = BOOST /\
       exists frames, ignition_commands (c w) = Some frames /\
                      sent_since w w' frames)
  | Raised e w' =>
      state w' = IGNITION_SEQUENCE /\
      (exists name, e = KeyError name) /\
      exists frames,
        sent_since w w' frames /\
        (frames = [] \/
         exists fm, servo_command (c w) "fuel_main" servo_open_pos = Some fm /\
           (frames = [fm] \/
            exists om, servo_command (c w) "oxidizer_main" servo_open_pos = Some om /\
                       frames = [fm; om]))
  | Starved w' => state w' = IGNITION_SEQUENCE /\ sent_since w w' []
  end.
Proof. apply ignition_sequence_post. Qed.

Lemma ignition_sequence_outcome_witness :
  match ignition_sequence no_oxidizer_main with
  | Done _ w' =>
      (state w' = ABORT /\ sent_since no_oxidizer_main w' []) \/
      (state w' = BOOST /\
       exists frames, ignition_commands (c no_oxidizer_main) = Some frames /\
                      sent_since no_oxidizer_main w' frames)
  | Raised e w' =>
      state w' = IGNITION_SEQUENCE /\
      (exists name, e = KeyError name) /\
      exists frames,
        sent_since no_oxidizer_main w' frames /\
        (frames = [] \/
         exists fm,
           servo_command (c no_oxidizer_main) "fuel_main" servo_open_pos = Some fm /\
           (frames = [fm] \/
            exists om,
              servo_command (c no_oxidizer_main) "oxidizer_main" servo_open_pos
                = Some om /\
              frames = [fm; om]))
  | Starved w' =>
      state w' = IGNITION_SEQUENCE /\ sent_since no_oxidizer_main w' []
  end.
Proof. apply (ignition_sequence_outcome no_oxidizer_main). discriminate. Defined.

(** With [oxidizer_main] missing, the fuel main valve is open when the
    [KeyError] leaves the phase. *)
Example ignition_sequence_half_open :
  ignition_sequence no_oxidizer_main =
  Raised (KeyError "oxidizer_main")
    (with_state IGNITION_SEQUENCE
       (with_timeline [Sent (servo_frame 2 0); Slept (1 # 5)]
          (with_feed [] no_oxidizer_main))).
Proof. reflexivity. Qed.

(** ** Ascent, by outcome *)

(** X6.  Entered in a state other than [ABORT],
    [climb_and_detect_apogee] sends no frame and never raises, whatever
    the telemetry; and when it returns, the state is [APOGEE] and both
    [apogee_alt] and [apogee_time] are set. *)
Theorem climb_and_detect_apogee_silent w :
  state w <> ABORT ->
  sent_since w (world_of (climb_and_detect_apogee w)) [] /\
  (forall e w', climb_and_detect_apogee w <> Raised e w') /\
  (forall w', climb_and_detect_apogee w = Done tt w' ->
     state w' = APOGEE /\ is_Some (apogee_alt w') /\ is_Some (apogee_time w')).
Proof.
  intros Hs. destruct (climb_and_detect_apogee_outcome w Hs) as (H1 & _ & H2 & H3).
  auto.
Qed.

Lemma climb_and_detect_apogee_silent_witness :
  sent_since (controller (map altitude_at [0; 2; 5; 4]) [1000])
    (world_of (climb_and_detect_apogee
                 (controller (map altitude_at [0; 2; 5; 4]) [1000]))) [].
Proof.
  apply (climb_and_detect_apogee_silent
           (controller (map altitude_at [0; 2; 5; 4]) [1000])).
  discriminate.
Defined.

(** The recorded apogee is a tracked read, not the arming read: after
    arming on 6 m, tracking opens on a fresh read of 3 m and records a
    peak of 4 m. *)
Example apogee_below_arming_altitude :
  apogee_alt (world_of (climb_and_detect_apogee
    (controller (map altitude_at [0; 6; 3; 4; 2]) [1000]))) = Some 4.
Proof. vm_compute. reflexivity. Qed.

(** A plateau is not an apogee: equal reads keep the tracking going. *)
Example plateau_is_not_apogee :
  let o := climb_and_detect_apogee (controller (map altitude_at [0; 2; 5; 5; 5]) [1000]) in
  state (world_of o) = ASCENT /\ apogee_alt (world_of o) = None.
Proof. vm_compute. split; reflexivity. Qed.

(** ** Descent, by outcome *)



(** The samples of consecutive pairs are not compared with each other: a
    rocket that falls 50 m between two pairs but holds still within each
    is taken as landed at the first pair. *)
Example landing_ignores_drift_between_pairs :
  state (world_of ((polls ≫= landing_loop)
    (with_state CHUTE_DEPLOYED (controller (map altitude_at [100; 100; 50; 50]) []))))
  = LANDED.
Proof. vm_compute. reflexivity. Qed.

(** X8.  The low-apogee shortcut.  Entered in a state other than [ABORT]
    with no recorded apogee, or a recorded apogee below 5 m,
    [descent_and_chute] returns at once in [LANDED] with the landed flag
    set: it reads no telemetry, does not sleep and sends nothing. *)
Theorem descent_low_apogee_lands w :
  state w <> ABORT ->
  apogee_alt w = None \/ (exists q, apogee_alt w = Some q /\ q < 5) ->
  descent_and_chute w = Done tt (with_landed true (with_state LANDED w)).
Proof.
  intros Hs Hlow%low_apogee_true.
  rewrite (descent_and_chute_unfold w Hs), Hlow. reflexivity.
Qed.

Lemma descent_low_apogee_lands_witness :
  descent_and_chute (with_state APOGEE (with_apogee_alt 3 (controller [] []))) =
  Done tt (with_landed true (with_state LANDED
    (with_state APOGEE (with_apogee_alt 3 (controller [] []))))).
Proof.
  apply descent_low_apogee_lands.
  - discriminate.
  - right. exists 3. split; reflexivity.
Defined.

(** X9.  Descent, by outcome.  Entered in a state other than [ABORT],
    [descent_and_chute] returns only in [LANDED] with the landed flag set,
    having sent nothing or exactly the one parachute relay-open.  If it
    raises, the parachute relay is not configured: the exception is
    [KeyError "parachute"], raised at the poll that should deploy, the
    state is left at [DESCENT] and nothing was sent.  While it is still
    polling, the state is [DESCENT] with nothing sent, or
    [CHUTE_DEPLOYED] with the parachute frame sent. *)
Theorem descent_and_chute_outcome w :
  state w <> ABORT ->
  match descent_and_chute w with
  | Done _ w' =>
      state w' = LANDED /\ landed w' = true /\
      (sent_since w w' [] \/
       exists p, relay_command (c w) "parachute" RELAY_OPEN = Some p /\
                 sent_since w w' [p])
  | Raised e w' =>
      e = KeyError "parachute" /\ relay_map (c w) !! "parachute" = None /\
      state w' = DESCENT /\ sent_since w w' []
  | Starved w' =>
      (state w' = DESCENT /\ sent_since w w' []) \/
      (state w' = CHUTE_DEPLOYED /\
       exists p, relay_command (c w) "parachute" RELAY_OPEN = Some p /\
                 sent_since w w' [p])
  end.
Proof. apply descent_and_chute_post. Qed.

Lemma descent_and_chute_outcome_witness :
  match descent_and_chute no_parachute with
  | Done _ w' =>
      state w' = LANDED /\ landed w' = true /\
      (sent_since no_parachute w' [] \/
       exists p, relay_command (c no_parachute) "parachute" RELAY_OPEN = Some p /\
                 sent_since no_parachute w' [p])
  | Raised e w' =>
      e = KeyError "parachute" /\
      relay_map (c no_parachute) !! "parachute" = None /\
      state w' = DESCENT /\ sent_since no_parachute w' []
  | Starved w' =>
      (state w' = DESCENT /\ sent_since no_parachute w' []) \/
      (state w' = CHUTE_DEPLOYED /\
       exists p, relay_command (c no_parachute) "parachute" RELAY_OPEN = Some p /\
                 sent_since no_parachute w' [p])
  end.
Proof. apply (descent_and_chute_outcome no_parachute). discriminate. Defined.

(** Without a parachute relay the device maps load, the mission flies, and
    the [KeyError] comes at the poll that should deploy. *)
Example descent_without_parachute_relay :
  descent_and_chute no_parachute =
  Raised (KeyError "parachute")
    (with_state DESCENT
       (with_timeline [Slept (1 # 2)]
          (with_clock [] (with_feed [] no_parachute)))).
Proof. reflexivity. Qed.

(** ** The sensor accessors *)

Lemma reading_sensor_value key d : reading key d = sensor_value key d.
Proof.
  unfold reading, sensor_value.
  destruct (d !! key) as [[n|x| |]|]; reflexivity.
Qed.

Lemma sensor_reads key : reads_sensor (_telem key (Some 0) ≫= as_float) key.
Proof.
  intros w. destruct (feed w) as [|d rest] eqn:Hf.
  - by apply sensor_starved.
  - rewrite <- reading_sensor_value. by apply sensor_read.
Qed.


(** A level sensor that reports [None] reads as an empty tank. *)
Example fuel_level_of_None :
  forall w rest,
    feed w = {[ "fuel_level" := VNone ]} :: rest ->
    fuel_level w = Done 0 (with_feed rest w).
Proof.
  intros w rest Hf. unfold fuel_level.
  rewrite (sensor_reads "fuel_level" w), Hf. reflexivity.
Qed.

(** ** The device maps of the constructor *)

Lemma load_servos_ok items : forall cl cl',
  load_servos items cl = Ok cl' ->
  Forall complete_servo items /\
  relay_map cl' = relay_map cl /\ sensor_map cl' = sensor_map cl /\
  (forall name, name ∉ items.*1 ->
     servo_map cl' !! name = servo_map cl !! name /\
     servo_open_pos cl' !! name = servo_open_pos cl !! name /\
     servo_closed_pos cl' !! name = servo_closed_pos cl !! name) /\
  (forall name, name ∈ items.*1 ->
     is_Some (servo_map cl' !! name) /\ is_Some (servo_open_pos cl' !! name) /\
     is_Some (servo_closed_pos cl' !! name)) /\
  (NoDup items.*1 -> forall name d, (name, d) ∈ items ->
     servo_map cl' !! name = d !! "device_id" /\
     servo_open_pos cl' !! name = d !! "open_pos" /\
     servo_closed_pos cl' !! name = d !! "closed_pos").
Proof.
  induction items as [|[n0 d0] items IH]; intros cl cl' Hload.
  { injection Hload as <-. repeat split; auto; try (intros; set_solver). }
  cbn [load_servos] in Hload. unfold item in Hload.
  destruct (d0 !! "device_id") as [dev|] eqn:Hdev; [|discriminate].
  destruct (d0 !! "open_pos") as [open|] eqn:Hopen; [|discriminate].
  destruct (d0 !! "closed_pos") as [closed|] eqn:Hclosed; [|discriminate].
  cbn [and_then] in Hload.
  apply IH in Hload as (Hall & Hrelay & Hsensor & Hout & Hin & Hval).
  cbn [servo_map relay_map sensor_map servo_open_pos servo_closed_pos] in *.
  split; [|split; [exact Hrelay|split; [exact Hsensor|split; [|split]]]].
  - constructor; [|exact Hall]. unfold complete_servo. cbn.
    rewrite Hdev, Hopen, Hclosed. eauto.
  - intros name Hname. cbn [fmap list_fmap fst] in Hname.
    apply not_elem_of_cons in Hname as [Hne Hname].
    destruct (Hout name Hname) as (-> & -> & ->).
    by rewrite !lookup_insert_ne.
  - intros name Hname. cbn [fmap list_fmap fst] in Hname.
    destruct (decide (name ∈ items.*1)) as [Hrest | Hrest]; [by apply Hin|].
    apply elem_of_cons in Hname as [-> | Hname]; [|done].
    destruct (Hout n0 Hrest) as (-> & -> & ->).
    rewrite !lookup_insert_eq. eauto.
  - intros Hnodup name d Hd. cbn [fmap list_fmap fst] in Hnodup.
    apply NoDup_cons in Hnodup as [Hfresh Hnodup].
    apply elem_of_cons in Hd as [[= -> ->] | Hd].
    + destruct (Hout n0 Hfresh) as (-> & -> & ->).
      by rewrite !lookup_insert_eq.
    + by apply Hval.
Qed.



Lemma load_relays_ok items : forall cl cl',
  load_relays items cl = Ok cl' ->
  Forall has_device_id items /\
  servo_map cl' = servo_map cl /\ servo_open_pos cl' = servo_open_pos cl /\
  servo_closed_pos cl' = servo_closed_pos cl /\ sensor_map cl' = sensor_map cl /\
  (forall name, name ∉ items.*1 -> relay_map cl' !! name = relay_map cl !! name) /\
  (NoDup items.*1 -> forall name d, (name, d) ∈ items ->
     relay_map cl' !! name = d !! "device_id").
Proof.
  induction items as [|[n0 d0] items IH]; intros cl cl' Hload.
  { injection Hload as <-. repeat split; auto; try (intros; set_solver). }
  cbn [load_relays] in Hload. unfold item in Hload.
  destruct (d0 !! "device_id") as [dev|] eqn:Hdev; [|discriminate].
  cbn [and_then] in Hload.
  apply IH in Hload as (Hall & Hs1 & Hs2 & Hs3 & Hs4 & Hout & Hval).
  cbn [servo_map relay_map sensor_map servo_open_pos servo_closed_pos] in *.
  split; [|do 4 (split; [assumption|]); split].
  - constructor; [|exact Hall]. unfold has_device_id. cbn. rewrite Hdev. eauto.
  - intros name Hname. cbn [fmap list_fmap fst] in Hname.
    apply not_elem_of_cons in Hname as [Hne Hname].
    rewrite (Hout name Hname). by rewrite lookup_insert_ne.
  - intros Hnodup name d Hd. cbn [fmap list_fmap fst] in Hnodup.
    apply NoDup_cons in Hnodup as [Hfresh Hnodup].
    apply elem_of_cons in Hd as [[= -> ->] | Hd].
    + rewrite (Hout n0 Hfresh). by rewrite lookup_insert_eq.
    + by apply Hval.
Qed.

Lemma load_sensors_ok items : forall cl cl',
  load_sensors items cl = Ok cl' ->
  Forall has_device_id items /\
  servo_map cl' = servo_map cl /\ servo_open_pos cl' = servo_open_pos cl /\
  servo_closed_pos cl' = servo_closed_pos cl /\ relay_map cl' = relay_map cl /\
  (forall name, name ∉ items.*1 -> sensor_map cl' !! name = sensor_map cl !! name) /\
  (NoDup items.*1 -> forall name d, (name, d) ∈ items ->
     sensor_map cl' !! name = d !! "device_id").
Proof.
  induction items as [|[n0 d0] items IH]; intros cl cl' Hload.
  { injection Hload as <-. repeat split; auto; try (intros; set_solver). }
  cbn [load_sensors] in Hload. unfold item in Hload.
  destruct (d0 !! "device_id") as [dev|] eqn:Hdev; [|discriminate].
  cbn [and_then] in Hload.
  apply IH in Hload as (Hall & Hs1 & Hs2 & Hs3 & Hs4 & Hout & Hval).
  cbn [servo_map relay_map sensor_map servo_open_pos servo_closed_pos] in *.
  split; [|do 4 (split; [assumption|]); split].
  - constructor; [|exact Hall]. unfold has_device_id. cbn. rewrite Hdev. eauto.
  - intros name Hname. cbn [fmap list_fmap fst] in Hname.
    apply not_elem_of_cons in Hname as [Hne Hname].
    rewrite (Hout name Hname). by rewrite lookup_insert_ne.
  - intros Hnodup name d Hd. cbn [fmap list_fmap fst] in Hnodup.
    apply NoDup_cons in Hnodup as [Hfresh Hnodup].
    apply elem_of_cons in Hd as [[= -> ->] | Hd].
    + rewrite (Hout n0 Hfresh). by rewrite lookup_insert_eq.
    + by apply Hval.
Qed.



(** What a successful constructor went through. *)
Lemma RocketClient_init_ok cfg cl :
  RocketClient_init cfg = Ok cl ->
  exists devices servos relays sensors cl1 cl2,
    cfg !! "devices" = Some devices /\
    devices !! "servo" = Some servos /\
    devices !! "relay" = Some relays /\
    devices !! "sensor" = Some sensors /\
    load_servos servos empty_client = Ok cl1 /\
    load_relays relays cl1 = Ok cl2 /\
    load_sensors sensors cl2 = Ok cl.
Proof.
  unfold RocketClient_init, item. intros H.
  destruct (cfg !! "devices") as [devices|]; [|discriminate]. cbn [and_then] in H.
  destruct (devices !! "servo") as [servos|] eqn:?; [|discriminate]. cbn [and_then] in H.
  destruct (load_servos servos empty_client) as [cl1|] eqn:H1; [|discriminate].
  cbn [and_then] in H.
  destruct (devices !! "relay") as [relays|] eqn:?; [|discriminate]. cbn [and_then] in H.
  destruct (load_relays relays cl1) as [cl2|] eqn:H2; [|discriminate].
  cbn [and_then] in H.
  destruct (devices !! "sensor") as [sensors|] eqn:?; [|discriminate]. cbn [and_then] in H.
  exists devices, servos, relays, sensors, cl1, cl2. repeat split; auto.
Qed.

(** The names of the three servo maps after a successful construction. *)
Lemma init_servo_names cfg cl :
  RocketClient_init cfg = Ok cl ->
  exists names : list string, forall name,
    (is_Some (servo_map cl !! name) <-> name ∈ names) /\
    (is_Some (servo_open_pos cl !! name) <-> name ∈ names) /\
    (is_Some (servo_closed_pos cl !! name) <-> name ∈ names).
Proof.
  intros (devices & servos & relays & sensors & cl1 & cl2 & _ & _ & _ & _ &
          H1 & H2 & H3)%RocketClient_init_ok.
  apply load_servos_ok in H1 as (_ & _ & _ & Hout & Hin & _).
  apply load_relays_ok in H2 as (_ & Ha2 & Hb2 & Hc2 & _).
  apply load_sensors_ok in H3 as (_ & Ha3 & Hb3 & Hc3 & _).
  exists servos.*1. rewrite Ha3, Hb3, Hc3, Ha2, Hb2, Hc2.
  intros name. destruct (decide (name ∈ servos.*1)) as [Hname | Hname].
  - destruct (Hin name Hname) as (? & ? & ?). tauto.
  - destruct (Hout name Hname) as (E1 & E2 & E3). rewrite E1, E2, E3. cbn.
    rewrite !lookup_empty. repeat split; intros H; try done;
      by destruct H.
Qed.

(** X11.  After a successful construction the three servo maps have the
    same names: every servo the client can command has an open and a
    closed position, so [set_servo_position(name, servo_open_pos[name])]
    and its closed counterpart cannot raise for a name of [servo_map]. *)
Theorem init_servo_maps_agree cfg cl :
  RocketClient_init cfg = Ok cl ->
  dom (servo_open_pos cl) = dom (servo_map cl) /\
  dom (servo_closed_pos cl) = dom (servo_map cl) /\
  forall name, is_Some (servo_map cl !! name) ->
    is_Some (servo_command cl name servo_open_pos) /\
    is_Some (servo_command cl name servo_closed_pos).
Proof.
  intros [names Hdom]%init_servo_names.
  unfold servo_command.
  split; [|split].
  - apply set_eq. intros name. rewrite !elem_of_dom.
    destruct (Hdom name) as (? & ? & ?). tauto.
  - apply set_eq. intros name. rewrite !elem_of_dom.
    destruct (Hdom name) as (? & ? & ?). tauto.
  - intros name Hname. destruct Hname as [dev Hdev].
    destruct (Hdom name) as (Hm & Ho & Hc).
    assert (Hin' : name ∈ names) by (apply Hm; eauto).
    apply Ho in Hin' as Hopen. apply Hc in Hin' as Hclosed.
    destruct Hopen as [po Hpo], Hclosed as [pc Hpc].
    rewrite Hpo, Hpc, Hdev. cbn. eauto.
Qed.

Example init_sample_config : RocketClient_init sample_config = Ok sample_client.
Proof. vm_compute. reflexivity. Qed.

Lemma init_servo_maps_agree_witness :
  dom (servo_open_pos sample_client) = dom (servo_map sample_client) /\
  dom (servo_closed_pos sample_client) = dom (servo_map sample_client).
Proof.
  destruct (init_servo_maps_agree sample_config sample_client) as (H1 & H2 & _).
  - vm_compute. reflexivity.
  - auto.
Defined.

(** X12.  What the constructor loads.  For categories with distinct names
    (the items of a dictionary), every servo entry is found in the three
    servo maps under its name with its own fields, every relay and sensor
    entry in its map with its device identifier, and a name that is not an
    entry of a category is not in that category's maps. *)
Theorem init_loads_entries cfg cl devices servos relays sensors :
  RocketClient_init cfg = Ok cl ->
  cfg !! "devices" = Some devices ->
  devices !! "servo" = Some servos ->
  devices !! "relay" = Some relays ->
  devices !! "sensor" = Some sensors ->
  NoDup servos.*1 -> NoDup relays.*1 -> NoDup sensors.*1 ->
  (forall name d, (name, d) ∈ servos ->
     servo_map cl !! name = d !! "device_id" /\
     servo_open_pos cl !! name = d !! "open_pos" /\
     servo_closed_pos cl !! name = d !! "closed_pos") /\
  (forall name d, (name, d) ∈ relays -> relay_map cl !! name = d !! "device_id") /\
  (forall name d, (name, d) ∈ sensors -> sensor_map cl !! name = d !! "device_id") /\
  (forall name, name ∉ servos.*1 -> servo_map cl !! name = None) /\
  (forall name, name ∉ relays.*1 -> relay_map cl !! name = None) /\
  (forall name, name ∉ sensors.*1 -> sensor_map cl !! name = None).
Proof.
  intros (devices' & servos' & relays' & sensors' & cl1 & cl2 &
          Hd & Hs & Hr & Hn & H1 & H2 & H3)%RocketClient_init_ok
         Hd' Hs' Hr' Hn' Nservo Nrelay Nsensor.
  assert (devices' = devices) as -> by congruence.
  assert (servos' = servos) as -> by congruence.
  assert (relays' = relays) as -> by congruence.
  assert (sensors' = sensors) as -> by congruence.
  apply load_servos_ok in H1 as (_ & Hrel1 & Hsen1 & Hout1 & _ & Hval1).
  apply load_relays_ok in H2 as (_ & Ha2 & Hb2 & Hc2 & Hsen2 & Hout2 & Hval2).
  apply load_sensors_ok in H3 as (_ & Ha3 & Hb3 & Hc3 & Hrel3 & Hout3 & Hval3).
  rewrite Ha3, Hb3, Hc3, Ha2, Hb2, Hc2, Hrel3.
  split; [by apply Hval1|]. split; [by apply Hval2|]. split; [by apply Hval3|].
  split; [|split].
  - intros name Hname. destruct (Hout1 name Hname) as (-> & _). apply lookup_empty.
  - intros name Hname. rewrite (Hout2 name Hname), Hrel1. apply lookup_empty.
  - intros name Hname. rewrite (Hout3 name Hname), Hsen2, Hsen1. apply lookup_empty.
Qed.

Lemma init_loads_entries_witness :
  servo_map sample_client !! "fuel_main" = servo_entry 2 0 100 !! "device_id" /\
  servo_open_pos sample_client !! "fuel_main" = servo_entry 2 0 100 !! "open_pos" /\
  servo_closed_pos sample_client !! "fuel_main" = servo_entry 2 0 100 !! "closed_pos".
Proof.
  destruct (init_loads_entries sample_config sample_client
              {[ "servo" := [("fuel_intake", servo_entry 0 0 100);
                             ("oxidizer_intake", servo_entry 1 0 100);
                             ("fuel_main", servo_entry 2 0 100);
                             ("oxidizer_main", servo_entry 3 0 100)];
                 "relay" := [("oxidizer_heater", device_entry 0);
                             ("igniter", device_entry 1);
                             ("parachute", device_entry 2)];
                 "sensor" := [("fuel_level", device_entry 0);
                              ("oxidizer_level", device_entry 1);
                              ("altitude", device_entry 2);
                              ("oxidizer_pressure", device_entry 3)] ]}
              [("fuel_intake", servo_entry 0 0 100);
               ("oxidizer_intake", servo_entry 1 0 100);
               ("fuel_main", servo_entry 2 0 100);
               ("oxidizer_main", servo_entry 3 0 100)]
              [("oxidizer_heater", device_entry 0);
               ("igniter", device_entry 1);
               ("parachute", device_entry 2)]
              [("fuel_level", device_entry 0);
               ("oxidizer_level", device_entry 1);
               ("altitude", device_entry 2);
               ("oxidizer_pressure", device_entry 3)])
    as (Hservo & _).
  - vm_compute. reflexivity.
  - reflexivity.
  - reflexivity.
  - reflexivity.
  - reflexivity.
  - refine (bool_decide_unpack _ _). vm_compute. exact I.
  - refine (bool_decide_unpack _ _). vm_compute. exact I.
  - refine (bool_decide_unpack _ _). vm_compute. exact I.
  - apply Hservo. do 2 apply list_elem_of_further. apply list_elem_of_here.
Defined.


(** A file with no parachute relay and no igniter loads. *)
Example init_accepts_mission_without_parachute :
  exists cl,
    RocketClient_init
      {[ "devices" := {[ "servo" := []; "relay" := [("oxidizer_heater", device_entry 0)];
                         "sensor" := [] ]} ]} = Ok cl /\
    relay_map cl !! "parachute" = None /\ relay_map cl !! "igniter" = None.
Proof. eexists. split; [vm_compute; reflexivity|]. split; reflexivity. Qed.

(** An entry without [open_pos] stops the constructor. *)
Example init_raises_on_missing_field :
  RocketClient_init
    {[ "devices" := {[ "servo" := [("vent", {[ "device_id" := 4%Z ]})];
                       "relay" := []; "sensor" := [] ]} ]} =
  Err (KeyError "open_pos").
Proof. vm_compute. reflexivity. Qed.

(** ** [get_servo_target_positions] *)

(** The comprehension, by induction on the names it runs over. *)
Lemma get_servo_target_positions_fold (opens closeds : gmap string Z)
    (m : gmap string Z) :
  match
    map_fold
      (fun name (_ : Z) acc =>
         and_then acc (fun r =>
         and_then (item opens name) (fun open =>
         and_then (item closeds name) (fun closed =>
         Ok (<[name := (open, closed)]> r)))))
      (Ok (∅ : gmap string (Z * Z))) m
  with
  | Ok r =>
      forall name,
        r !! name =
        match m !! name, opens !! name, closeds !! name with
        | Some _, Some open, Some closed => Some (open, closed)
        | _, _, _ => None
        end /\
        (is_Some (m !! name) ->
         is_Some (opens !! name) /\ is_Some (closeds !! name))
  | Err e =>
      exists name, e = KeyError name /\ is_Some (m !! name) /\
        (opens !! name = None \/ closeds !! name = None)
  end.
Proof.
  apply (map_fold_weak_ind
    (fun (res : result (gmap string (Z * Z))) (m : gmap string Z) =>
       match res with
       | Ok r =>
           forall name,
             r !! name =
             match m !! name, opens !! name, closeds !! name with
             | Some _, Some open, Some closed => Some (open, closed)
             | _, _, _ => None
             end /\
             (is_Some (m !! name) ->
              is_Some (opens !! name) /\ is_Some (closeds !! name))
       | Err e =>
           exists name, e = KeyError name /\ is_Some (m !! name) /\
             (opens !! name = None \/ closeds !! name = None)
       end)).
  - intros name. rewrite !lookup_empty. split; [done|]. by intros [? ?].
  - intros i x m' res Hi IH. destruct res as [r|e]; cbn [and_then].
    + unfold item.
      destruct (opens !! i) as [open|] eqn:Hopen; cbn [and_then].
      2:{ exists i. rewrite lookup_insert_eq. eauto. }
      destruct (closeds !! i) as [closed|] eqn:Hclosed; cbn [and_then].
      2:{ exists i. rewrite lookup_insert_eq. eauto. }
      intros name. destruct (decide (name = i)) as [-> | Hne].
      * rewrite !lookup_insert_eq, Hopen, Hclosed. eauto.
      * rewrite !lookup_insert_ne by done. apply IH.
    + destruct IH as (name & -> & Hname & Hmiss).
      exists name. split; [done|]. split; [|done].
      destruct (decide (name = i)) as [-> | Hne].
      * rewrite lookup_insert_eq. eauto.
      * by rewrite lookup_insert_ne.
Qed.

(** X14.  [get_servo_target_positions] on any client.  It returns exactly
    when every name of [servo_map] has an open and a closed position, and
    then the result has an entry for each name of [servo_map], made of that
    name's two positions, and no other entry; otherwise it raises
    [KeyError] for a name of [servo_map] that lacks a position. *)
Theorem get_servo_target_positions_outcome (cl : RocketClient) :
  match get_servo_target_positions cl with
  | Ok r =>
      dom r = dom (servo_map cl) /\
      forall name open closed,
        r !! name = Some (open, closed) <->
        is_Some (servo_map cl !! name) /\
        servo_open_pos cl !! name = Some open /\
        servo_closed_pos cl !! name = Some closed
  | Err e =>
      exists name, e = KeyError name /\ is_Some (servo_map cl !! name) /\
        (servo_open_pos cl !! name = None \/ servo_closed_pos cl !! name = None)
  end.
Proof.
  unfold get_servo_target_positions.
  pose proof (get_servo_target_positions_fold
                (servo_open_pos cl) (servo_closed_pos cl) (servo_map cl)) as H.
  destruct (map_fold _ _ _) as [r|e]; [|exact H].
  split.
  - apply set_eq. intros name. rewrite !elem_of_dom.
    destruct (H name) as [-> Hhas].
    destruct (servo_map cl !! name) as [dev|]; [|split; intros [? ?]; done].
    destruct Hhas as [[open ->] [closed ->]]; [eauto|]. split; eauto.
  - intros name open closed. destruct (H name) as [-> _].
    destruct (servo_map cl !! name) as [dev|];
      [|split; [done|by intros [[? ?] _]]].
    destruct (servo_open_pos cl !! name) as [o|];
      [|split; [done|by intros (_ & ? & _)]].
    destruct (servo_closed_pos cl !! name) as [c|];
      [|split; [done|by intros (_ & _ & ?)]].
    split; [intros [= -> ->]; eauto|by intros (_ & [= ->] & [= ->])].
Qed.

(** A client whose servo was given a device but no positions: the call
    raises for that servo. *)
Example get_servo_target_positions_raises :
  get_servo_target_positions (without_servo_positions "fuel_main" sample_client) =
  Err (KeyError "fuel_main").
Proof. vm_compute. reflexivity. Qed.

(** X15.  On a client the constructor built, [get_servo_target_positions]
    returns, with one entry for every configured servo. *)
Theorem get_servo_target_positions_after_init cfg cl :
  RocketClient_init cfg = Ok cl ->
  exists r, get_servo_target_positions cl = Ok r /\
    dom r = dom (servo_map cl) /\
    forall name, is_Some (servo_map cl !! name) ->
      exists open closed,
        r !! name = Some (open, closed) /\
        servo_open_pos cl !! name = Some open /\
        servo_closed_pos cl !! name = Some closed.
Proof.
  intros [names Hdom]%init_servo_names.
  unfold get_servo_target_positions.
  pose proof (get_servo_target_positions_fold
                (servo_open_pos cl) (servo_closed_pos cl) (servo_map cl)) as H.
  destruct (map_fold _ _ _) as [r|e].
  - exists r. split; [done|]. split.
    + apply set_eq. intros name. rewrite !elem_of_dom.
      destruct (H name) as [-> Hhas].
      destruct (servo_map cl !! name) as [dev|]; [|split; intros [? ?]; done].
      destruct Hhas as [[open ->] [closed ->]]; [eauto|]. split; eauto.
    + intros name Hname. destruct (H name) as [-> Hhas].
      destruct (Hhas Hname) as [[open ->] [closed ->]].
      destruct Hname as [dev ->]. eauto.
  - exfalso. destruct H as (name & _ & Hname & Hmiss).
    destruct (Hdom name) as (Hm & Ho & Hc).
    apply Hm in Hname.
    destruct (proj2 Ho Hname) as [? Hopen].
    destruct (proj2 Hc Hname) as [? Hclosed].
    destruct Hmiss; congruence.
Qed.

Lemma get_servo_target_positions_after_init_witness :
  exists r, get_servo_target_positions sample_client = Ok r /\
    dom r = dom (servo_map sample_client).
Proof.
  destruct (get_servo_target_positions_after_init sample_config sample_client)
    as (r & Hr & Hd & _).
  - vm_compute. reflexivity.
  - exists r. auto.
Defined.
